(** * Safety-trend engine of the neighbourhood dashboard

    A shallow embedding of the trend computation of [src/js/map.js]
    (the part that the application imports as [function-tools.js]):
    [createSpatialIndex], [calculateCommunityBounds], [isPointInBounds],
    [getCrimesInCommunityBounds], [calculateSafetyTrends],
    [getPolygonCoordinates], [pointInPolygon], [isPointOnLineSegment] and
    [getSafetyTrendsForTimeRange].

    Number model.  In the aggregation, coordinates, bounding boxes and
    the grid size are modelled as exact rationals ([Q]), with [/], [*],
    [-], [Math.floor], [Math.min], [Math.max] and [Math.abs] the exact
    operations: the rounding error of IEEE doubles, NaN and the
    infinities are outside the geometry of that model, and only
    statements that do not depend on the rounding are made of it.  The
    containment test is also given in IEEE binary64 (module [Binary64],
    primitive floats), operation by operation as the source computes it;
    the statements about points on an edge and about the winding
    direction, which the rounding decides, are made of that one.  Array
    lengths are [nat].  The percentage is computed in IEEE binary64, as
    the source does, because the rounding of the quotient decides the
    integer that [Math.round] returns: [(63 - 40) / 40 * 100] is
    57.49999999999999.

    Objects used as dictionaries ([trends], [timeRanges], the spatial
    index) and the [Map] of cached bounds are finite maps: a dictionary
    holds its own keys only.  For [crimeTypes], whose keys are free text,
    the members that a plain object inherits from [Object.prototype] are
    modelled: [crimeTypes[type] || 0] finds them.

    Dates.  A timestamp string is modelled by what [new Date] makes of
    it: nothing, an invalid date, or a date with its time value and its
    calendar year.  The clock of the '6months' window is an argument.

    Errors.  A [TypeError] raised by reading a field of [undefined] is
    modelled where the source can raise one: a crime without
    [properties], a boundary without [id] and [properties]. *)

From Stdlib Require Import ZArith QArith Qround Qabs Qminmax Lia Lqa.
From Stdlib Require Import PrimFloat FloatOps SpecFloat.
From Stdlib Require Import String Ascii List Bool Permutation.
From stdpp Require Import gmap strings list.

Local Open Scope string_scope.
Local Open Scope list_scope.
Local Open Scope Q_scope.

(** A decimal literal of a double stands for the nearest double, as in
    the source. *)
Local Set Warnings "-inexact-float".

(** ** JavaScript numbers *)

Module JS.

(** [x < y], [x <= y], [x > y], [x >= y] on numbers. *)
Definition le (x y : Q) : bool := Qle_bool x y.
Definition lt (x y : Q) : bool := negb (Qle_bool y x).
Definition gt (x y : Q) : bool := lt y x.
Definition ge (x y : Q) : bool := le y x.

(** [Math.floor]: the result is an integer, kept as [Z]. *)
Definition Math_floor (x : Q) : Z := Qfloor x.

Definition Math_min (x y : Q) : Q := Qmin x y.
Definition Math_max (x y : Q) : Q := Qmax x y.
Definition Math_abs (x : Q) : Q := Qabs x.

(** [a || b] on values that are absent or a string: the empty string is
    falsy as well. *)
Definition truthy (s : option string) : bool :=
  match s with
  | Some s' => negb (String.eqb s' "")
  | None => false
  end.

Definition or_else (a b : option string) : option string :=
  if truthy a then a else b.

(** [hay.includes(needle)]. *)
Fixpoint includes (hay needle : string) : bool :=
  String.prefix needle hay
  || match hay with
     | EmptyString => false
     | String _ rest => includes rest needle
     end.

End JS.

(** ** Double-precision numbers *)

Module Double.

(** The double nearest to an integer; exact below 2^53. *)
Definition of_Z (z : Z) : float :=
  SF2Prim (binary_normalize prec emax z 0 false).

(** A number made from an array length. *)
Definition of_nat (n : nat) : float := of_Z (Z.of_nat n).

(** [Math.round]: NaN, the infinities, the zeros and the integers are
    returned as they are; any other [x] goes to [floor (x + 1/2)], taken
    exactly, so a tie goes to the larger integer ([Math.round(-12.5)] is
    [-12], [Math.round(12.5)] is [13]); a result of zero keeps the sign
    of [x].  The value of a finite double is [m * 2^e], negated when [s]
    is set. *)
Definition Math_round (x : float) : float :=
  match Prim2SF x with
  | S754_finite s m e =>
      if (0 <=? e)%Z then x
      else
        let twice := ((if s then Z.neg m else Z.pos m) * 2 + 2 ^ (- e))%Z in
        let n := (twice / 2 ^ (1 - e))%Z in
        if (n =? 0)%Z then (if s then (-0)%float else 0%float) else of_Z n
  | _ => x
  end.

(** [Math.min] of two numbers: NaN when one of them is NaN, and -0
    below +0. *)
Definition Math_min (x y : float) : float :=
  if (is_nan x || is_nan y)%bool then nan
  else if (x <? y)%float then x
  else if (y <? x)%float then y
  else if (is_zero x && is_zero y)%bool then (if get_sign x then x else y)
  else x.

(** [Math.max] of two numbers: NaN when one of them is NaN, and +0
    above -0. *)
Definition Math_max (x y : float) : float :=
  if (is_nan x || is_nan y)%bool then nan
  else if (y <? x)%float then x
  else if (x <? y)%float then y
  else if (is_zero x && is_zero y)%bool then (if get_sign x then y else x)
  else x.

(** The rational number that a finite double stands for, [m * 2^e]
    negated when the sign is set (0 for the zeros; NaN and the
    infinities stand for no number and are given 0). *)
Definition value (x : float) : Q :=
  match Prim2SF x with
  | S754_finite s m e =>
      let z := if s then Z.neg m else Z.pos m in
      if (0 <=? e)%Z then inject_Z (z * 2 ^ e)
      else z # (2 ^ Z.to_pos (- e))%positive
  | _ => 0
  end.

End Double.

(** ** Geometry *)

(** A vertex as [getPolygonCoordinates] produces it: [[lat, lon]]. *)
Definition Vertex : Type := (Q * Q)%type.

(** GeoJSON geometry objects.  A position is an array of numbers;
    a ring is an array of positions. *)
#[warnings="-register-all"]
Inductive Geometry : Type :=
| Polygon (coordinates : list (list (list Q)))
| MultiPolygon (coordinates : list (list (list (list Q))))
| GeometryCollection (geometries : list (option Geometry))
| OtherGeometry (type : string).

(** The body of the two [outerRing.forEach] loops: a position with at
    least two numbers is pushed as [[coord[1], coord[0]]]. *)
Definition ring_vertices (outerRing : list (list Q)) : list Vertex :=
  flat_map (fun coord =>
              match coord with
              | c0 :: c1 :: _ => [(c1, c0)]
              | _ => []
              end) outerRing.

(** [polygon[0]] of a polygon, when there is one. *)
Definition outer_ring_vertices (polygon : list (list (list Q))) : list Vertex :=
  match polygon with
  | outerRing :: _ => ring_vertices outerRing
  | [] => []
  end.

Fixpoint getPolygonCoordinates_geom (geometry : Geometry) : list Vertex :=
  match geometry with
  | Polygon coordinates => outer_ring_vertices coordinates
  | MultiPolygon coordinates => flat_map outer_ring_vertices coordinates
  | GeometryCollection geometries =>
      flat_map (fun subGeometry =>
                  match subGeometry with
                  | Some g => getPolygonCoordinates_geom g
                  | None => []
                  end) geometries
  | OtherGeometry _ => []
  end.

(** [getPolygonCoordinates(geometry)]; an absent geometry gives []. *)
Definition getPolygonCoordinates (geometry : option Geometry) : list Vertex :=
  match geometry with
  | Some g => getPolygonCoordinates_geom g
  | None => []
  end.

(** [isPointOnLineSegment(px, py, x1, y1, x2, y2)], in the exact
    arithmetic of the aggregation model; [Binary64.isPointOnLineSegment]
    below is the function as the source rounds it. *)
Definition isPointOnLineSegment (px py x1 y1 x2 y2 : Q) : bool :=
  if JS.lt px (JS.Math_min x1 x2 - (1 # 100000))
     || JS.gt px (JS.Math_max x1 x2 + (1 # 100000))
     || JS.lt py (JS.Math_min y1 y2 - (1 # 100000))
     || JS.gt py (JS.Math_max y1 y2 + (1 # 100000))
  then false
  else
    let crossProduct := (px - x1) * (y2 - y1) - (py - y1) * (x2 - x1) in
    JS.lt (JS.Math_abs crossProduct) (1 # 100000).

(** The ray-casting test of one edge, from [polygon[i]] = [(yi, xi)] to
    [polygon[j]] = [(yj, xj)].  The right operand of [&&] is only
    evaluated when the left one holds. *)
Definition intersect (lat lon : Q) (vi vj : Vertex) : bool :=
  let xi := snd vi in let yi := fst vi in
  let xj := snd vj in let yj := fst vj in
  negb (Bool.eqb (JS.gt yi lat) (JS.gt yj lat))
  && JS.lt lon ((xj - xi) * (lat - yi) / (yj - yi) + xi).

(** The [for] loop of [pointInPolygon]: [vs] are the vertices
    [polygon[i]], [polygon[i+1]], ... still to visit, [vj] is
    [polygon[j]] (the vertex visited before, the last one at the start),
    [inside] the flag so far. *)
Fixpoint pointInPolygon_loop (lat lon : Q) (vj : Vertex) (vs : list Vertex)
    (inside : bool) : bool :=
  match vs with
  | [] => inside
  | vi :: rest =>
      if isPointOnLineSegment lat lon (fst vi) (snd vi) (fst vj) (snd vj)
      then true
      else
        pointInPolygon_loop lat lon vi rest
          (if intersect lat lon vi vj then negb inside else inside)
  end.

Definition pointInPolygon (lat lon : Q) (polygon : list Vertex) : bool :=
  if (length polygon <? 3)%nat then false
  else pointInPolygon_loop lat lon (List.last polygon (0, 0)) polygon false.

(** ** The containment test in double precision *)

Module Binary64.

(** A vertex [[lat, lon]] of two doubles. *)
Definition Vertex : Type := (float * float)%type.

(** The literal [0.00001]: the double nearest to it. *)
Definition tolerance : float := 0.00001%float.

(** [a > b] *)
Definition gt (a b : float) : bool := (b <? a)%float.

(** [isPointOnLineSegment(px, py, x1, y1, x2, y2)]; every operation is
    rounded to the nearest double, a comparison with NaN is false. *)
Definition isPointOnLineSegment (px py x1 y1 x2 y2 : float) : bool :=
  if (px <? Double.Math_min x1 x2 - tolerance)%float
     || gt px (Double.Math_max x1 x2 + tolerance)%float
     || (py <? Double.Math_min y1 y2 - tolerance)%float
     || gt py (Double.Math_max y1 y2 + tolerance)%float
  then false
  else
    let crossProduct := ((px - x1) * (y2 - y1) - (py - y1) * (x2 - x1))%float in
    (abs crossProduct <? tolerance)%float.

(** The ray-casting test of one edge, from [polygon[i]] = [(yi, xi)] to
    [polygon[j]] = [(yj, xj)]. *)
Definition intersect (lat lon : float) (vi vj : Vertex) : bool :=
  let xi := snd vi in let yi := fst vi in
  let xj := snd vj in let yj := fst vj in
  negb (Bool.eqb (gt yi lat) (gt yj lat))
  && (lon <? (xj - xi) * (lat - yi) / (yj - yi) + xi)%float.

(** The [for] loop of [pointInPolygon], as for the rationals. *)
Fixpoint pointInPolygon_loop (lat lon : float) (vj : Vertex)
    (vs : list Vertex) (inside : bool) : bool :=
  match vs with
  | [] => inside
  | vi :: rest =>
      if isPointOnLineSegment lat lon (fst vi) (snd vi) (fst vj) (snd vj)
      then true
      else
        pointInPolygon_loop lat lon vi rest
          (if intersect lat lon vi vj then negb inside else inside)
  end.

Definition pointInPolygon (lat lon : float) (polygon : list Vertex) : bool :=
  if (length polygon <? 3)%nat then false
  else
    pointInPolygon_loop lat lon (List.last polygon (0%float, 0%float)) polygon
      false.

(** The edges that the loop visits, each as the pair
    [(polygon[i], polygon[j])] of the vertex and the vertex before it,
    the first vertex with the last. *)
Fixpoint edges_from (vj : Vertex) (vs : list Vertex)
    : list (Vertex * Vertex) :=
  match vs with
  | [] => []
  | vi :: rest => (vi, vj) :: edges_from vi rest
  end.

Definition edges (polygon : list Vertex) : list (Vertex * Vertex) :=
  edges_from (List.last polygon (0%float, 0%float)) polygon.

(** The on-edge test of an edge as the loop calls it, and the parity of
    the ray-casting test over a list of edges. *)
Definition on_edge (lat lon : float) (e : Vertex * Vertex) : bool :=
  isPointOnLineSegment lat lon (fst (fst e)) (snd (fst e))
    (fst (snd e)) (snd (snd e)).

Definition crossings (lat lon : float) (es : list (Vertex * Vertex)) : bool :=
  fold_right (λ e odd, xorb (intersect lat lon (fst e) (snd e)) odd) false es.

(** The vertex as a pair of rationals. *)
Definition value (v : Vertex) : Q * Q :=
  (Double.value (fst v), Double.value (snd v)).

End Binary64.

(** ** Input records *)

(** A parsed timestamp: what [new Date(dateStr)] gives when the string
    parses.  [getTime] is the time value compared by [>=], [<=] and [<];
    [getFullYear] is the calendar year in local time. *)
Record JSDate : Type := mkDate { getTime : Z; getFullYear : Z }.

(** The field [dispatch_date_time] together with its parse: absent or
    empty, a string that [new Date] cannot parse, or a string that
    parses. *)
Inductive DateField : Type :=
| DateMissing
| DateInvalid
| DateValid (crimeDate : JSDate).

Record CrimeProperties : Type := mkCrimeProperties {
  text_general_code : option string;
  dispatch_date_time : DateField
}.

(** A point record: [geometry.coordinates] is [[lon, lat]]. *)
Record Crime : Type := mkCrime {
  crime_coordinates : option (list Q);
  crime_properties : option CrimeProperties
}.

Record CrimeCollection : Type := mkCrimeCollection {
  crime_features : option (list Crime)
}.

Record CommunityProperties : Type := mkCommunityProperties {
  MAPNAME : option string;
  name : option string
}.

Record Community : Type := mkCommunity {
  id : option string;
  properties : option CommunityProperties;
  geometry : option Geometry
}.

Record CommunityCollection : Type := mkCommunityCollection {
  features : option (list Community)
}.

(** The three instants that [new Date()] and the two [setMonth] calls of
    the '6months' branch produce, as time values. *)
Record Clock : Type := mkClock {
  dynamicNow : Z;
  sixMonthsAgo : Z;
  twelveMonthsAgo : Z
}.

(** ** Result records *)

Record TimeRangeResult : Type := mkTimeRangeResult {
  recent : nat;
  previous : nat;
  range_changePercent : float
}.

(** The function members of [Object.prototype], which every plain object
    inherits. *)
Definition Object_prototype_functions : list string :=
  ["constructor"; "hasOwnProperty"; "isPrototypeOf"; "propertyIsEnumerable";
   "toLocaleString"; "toString"; "valueOf"; "__defineGetter__";
   "__defineSetter__"; "__lookupGetter__"; "__lookupSetter__"].

(** A value of the [crimeTypes] object: a count, or, for a label that
    names a function member of [Object.prototype], the source text of
    that function followed by [ones] characters '1' (the first
    [crimeTypes[type] || 0] finds the inherited function, and [+ 1]
    then appends to a string). *)
Inductive TypeCount : Type :=
| Counted (n : nat)
| Appended (member : string) (ones : nat).

(** A trend record.  [crimeTypes] is rebuilt with its keys sorted in the
    source; as a finite map the order of the keys is not kept. *)
Record Trend : Type := mkTrend {
  communityId : string;
  communityName : string;
  recentCount : nat;
  previousCount : nat;
  changePercent : float;
  crimeTypes : gmap string TypeCount;
  timeRanges : gmap string TimeRangeResult
}.

Record Bounds : Type := mkBounds {
  minLat : Q; maxLat : Q; minLon : Q; maxLon : Q
}.

(** [calculationCache]: the fields the engine reads or writes.  The key
    of [communityBounds] is [community.id || community.properties.name],
    which is [undefined] ([None]) when neither is there. *)
Record Cache : Type := mkCache {
  communityBounds : gmap (option string) Bounds;
  results : gmap string Trend
}.

(** How a call ends: normally, or with a thrown [TypeError]. *)
Inductive Completion (A : Type) : Type :=
| Normal (a : A)
| Thrown.
Arguments Normal {A} a.
Arguments Thrown {A}.

(** ** Spatial grid index *)

(** The index object; the key [`${gridX}_${gridY}`] is the pair. *)
Abbreviation SpatialIndex := (gmap (Z * Z) (list Crime)).

(** [const [lon, lat] = coords] for coordinates with at least two
    entries; [createSpatialIndex] skips a crime without them. *)
Definition lon_lat (coords : option (list Q)) : option (Q * Q) :=
  match coords with
  | Some (lon :: lat :: _) => Some (lon, lat)
  | _ => None
  end.

Definition grid_key (gridSize lon lat : Q) : Z * Z :=
  (JS.Math_floor (lon / gridSize), JS.Math_floor (lat / gridSize)).

(** One step of the [forEach] of [createSpatialIndex]. *)
Definition index_crime (gridSize : Q) (index : SpatialIndex) (crime : Crime)
    : SpatialIndex :=
  match lon_lat (crime_coordinates crime) with
  | None => index
  | Some (lon, lat) =>
      let key := grid_key gridSize lon lat in
      <[key := default [] (index !! key) ++ [crime]]> index
  end.

Definition createSpatialIndex (crimeData : option CrimeCollection)
    (gridSize : Q) : SpatialIndex :=
  match crimeData with
  | Some {| crime_features := Some fs |} =>
      fold_left (index_crime gridSize) fs ∅
  | _ => ∅
  end.

(** [calculateCommunityBounds].  The source starts the four folds at
    [Infinity] and [-Infinity]; with at least three vertices the first
    step replaces them by the first vertex, where the folds start here. *)
Definition calculateCommunityBounds (community : Community) : option Bounds :=
  let coords := getPolygonCoordinates (geometry community) in
  if (length coords <? 3)%nat then None
  else
    match coords with
    | [] => None
    | (lat0, lon0) :: _ =>
        Some (fold_left
                (fun b v =>
                   {| minLat := JS.Math_min (minLat b) (fst v);
                      maxLat := JS.Math_max (maxLat b) (fst v);
                      minLon := JS.Math_min (minLon b) (snd v);
                      maxLon := JS.Math_max (maxLon b) (snd v) |})
                coords
                {| minLat := lat0; maxLat := lat0;
                   minLon := lon0; maxLon := lon0 |})
    end.

Definition isPointInBounds (lat lon : Q) (bounds : Bounds) : bool :=
  JS.ge lat (minLat bounds) && JS.le lat (maxLat bounds)
  && JS.ge lon (minLon bounds) && JS.le lon (maxLon bounds).

(** The crimes of one grid cell that lie within the bounds.  The index
    only holds crimes with two coordinates; for any other the test is
    taken as false. *)
Definition cell_crimes (spatialIndex : SpatialIndex) (bounds : Bounds)
    (key : Z * Z) : list Crime :=
  match spatialIndex !! key with
  | Some cell =>
      List.filter (fun crime =>
                     match lon_lat (crime_coordinates crime) with
                     | Some (lon, lat) => isPointInBounds lat lon bounds
                     | None => false
                     end) cell
  | None => []
  end.

(** The two nested [for] loops over the grid cells. *)
Definition scan_cells (spatialIndex : SpatialIndex) (bounds : Bounds)
    (gridSize : Q) : list Crime :=
  let startX := JS.Math_floor (minLon bounds / gridSize) in
  let endX := JS.Math_floor (maxLon bounds / gridSize) in
  let startY := JS.Math_floor (minLat bounds / gridSize) in
  let endY := JS.Math_floor (maxLat bounds / gridSize) in
  flat_map (fun x =>
              flat_map (fun y => cell_crimes spatialIndex bounds (x, y))
                (seqZ startY (endY - startY + 1)))
    (seqZ startX (endX - startX + 1)).

(** The key under which the bounds of a community are cached;
    [community.properties.name] throws when there are no properties. *)
Definition bounds_key (community : Community) : Completion (option string) :=
  if JS.truthy (id community) then Normal (id community)
  else
    match properties community with
    | Some p => Normal (name p)
    | None => Thrown
    end.

(** [getCrimesInCommunityBounds], with the cache passed through. *)
Definition getCrimesInCommunityBounds (community : Community)
    (spatialIndex : SpatialIndex) (gridSize : Q) (cache : Cache)
    : Completion (list Crime * Cache) :=
  match bounds_key community with
  | Thrown => Thrown
  | Normal communityId =>
      match communityBounds cache !! communityId with
      | Some bounds => Normal (scan_cells spatialIndex bounds gridSize, cache)
      | None =>
          match calculateCommunityBounds community with
          | None => Normal ([], cache)
          | Some bounds =>
              Normal (scan_cells spatialIndex bounds gridSize,
                      {| communityBounds :=
                           <[communityId := bounds]> (communityBounds cache);
                         results := results cache |})
          end
      end
  end.

(** ** Period and category classification *)

Inductive Period : Type := PeriodRecent | PeriodPrevious | PeriodOther.

(** [getPeriodType].  [now] is [new Date('2025-06-01')], whose
    [getFullYear()] is 2025. *)
Definition getPeriodType (clock : Clock) (timeRange : string)
    (crimeDate : JSDate) : Period :=
  if String.eqb timeRange "6months" then
    if ((sixMonthsAgo clock <=? getTime crimeDate)
        && (getTime crimeDate <=? dynamicNow clock))%Z then PeriodRecent
    else if ((twelveMonthsAgo clock <=? getTime crimeDate)
             && (getTime crimeDate <? sixMonthsAgo clock))%Z then PeriodPrevious
    else PeriodOther
  else if String.eqb timeRange "1year" then
    if (getFullYear crimeDate =? 2025)%Z then PeriodRecent
    else if (getFullYear crimeDate =? 2024)%Z then PeriodPrevious
    else PeriodOther
  else if String.eqb timeRange "2years" then
    let currentYear := 2025%Z in
    if ((getFullYear crimeDate =? currentYear)
        || (getFullYear crimeDate =? currentYear - 1))%Z then PeriodRecent
    else if ((getFullYear crimeDate =? currentYear - 2)
             || (getFullYear crimeDate =? currentYear - 3))%Z then PeriodPrevious
    else PeriodOther
  else PeriodOther.

Definition otherSpecificTypes : list string :=
  ["Burglary Residential"; "Motor Vehicle Theft"; "Theft from Vehicle";
   "Vandalism/Criminal Mischief"].

(** The [for (const type of selectedCrimeTypes)] loop. *)
Fixpoint selected_loop (crimeDescription : string) (types : list string)
    : bool :=
  match types with
  | [] => false
  | type :: rest =>
      if String.eqb type "Violent Crime" then
        let isNotOtherSpecificType :=
          negb (existsb (fun otherType => JS.includes crimeDescription otherType)
                  otherSpecificTypes) in
        if isNotOtherSpecificType then true
        else selected_loop crimeDescription rest
      else if JS.includes crimeDescription type then true
      else selected_loop crimeDescription rest
  end.

(** [crime.properties.text_general_code || ''] *)
Definition description_of (p : CrimeProperties) : string :=
  if JS.truthy (text_general_code p) then default "" (text_general_code p)
  else "".

(** [isCrimeTypeSelected]; reading [crime.properties.text_general_code]
    throws when the crime has no properties. *)
Definition isCrimeTypeSelected (selectedCrimeTypes : option (list string))
    (crime : Crime) : Completion bool :=
  match selectedCrimeTypes with
  | None | Some [] => Normal true
  | Some types =>
      match crime_properties crime with
      | None => Thrown
      | Some p => Normal (selected_loop (description_of p) types)
      end
  end.

(** The body of the [try] in the first [crimeData.features.forEach]:
    the period bucket the crime is pushed to, if any.  A thrown error is
    caught there and the crime is skipped. *)
Definition crime_bucket (clock : Clock) (timeRange : string)
    (selectedCrimeTypes : option (list string)) (crime : Crime) : Period :=
  match isCrimeTypeSelected selectedCrimeTypes crime with
  | Thrown | Normal false => PeriodOther
  | Normal true =>
      match crime_properties crime with
      | None => PeriodOther
      | Some p =>
          match dispatch_date_time p with
          | DateValid crimeDate => getPeriodType clock timeRange crimeDate
          | DateInvalid | DateMissing => PeriodOther
          end
      end
  end.

Definition is_recent (p : Period) : bool :=
  match p with PeriodRecent => true | _ => false end.
Definition is_previous (p : Period) : bool :=
  match p with PeriodPrevious => true | _ => false end.

(** ** Trend aggregation *)

(** The callback of [candidateRecentCrimes.filter] and of
    [candidatePreviousCrimes.filter]. *)
Definition crime_in_community (communityCoords : list Vertex) (crime : Crime)
    : bool :=
  match lon_lat (crime_coordinates crime) with
  | Some (lon, lat) => pointInPolygon lat lon communityCoords
  | None => false
  end.

Definition inherits_function (type : string) : bool :=
  existsb (String.eqb type) Object_prototype_functions.

(** [(crimeTypes[type] || 0) + 1], where [own] is the own property of
    [crimeTypes] under [type], if any: a count goes up by one, a string
    gets one more '1', and without an own property the inherited
    function, if [type] names one, is turned into a string. *)
Definition plus_one (type : string) (own : option TypeCount) : TypeCount :=
  match own with
  | Some (Counted n) => Counted (n + 1)
  | Some (Appended member ones) => Appended member (ones + 1)
  | None => if inherits_function type then Appended type 1 else Counted (0 + 1)
  end.

(** Counting [text_general_code] over the recent crimes of a community:
    [crimeTypes[type] = (crimeTypes[type] || 0) + 1].  Under the label
    '__proto__' the assignment calls the setter of [Object.prototype],
    which ignores a string: no own property is made. *)
Definition count_type (crimeTypes : gmap string TypeCount) (crime : Crime)
    : gmap string TypeCount :=
  match crime_properties crime with
  | Some p =>
      if JS.truthy (text_general_code p) then
        let type := default "" (text_general_code p) in
        if String.eqb type "__proto__" then crimeTypes
        else <[type := plus_one type (crimeTypes !! type)]> crimeTypes
      else crimeTypes
  | None => crimeTypes
  end.

Definition communityName_of (community : Community) : string :=
  let mapname := match properties community with
                 | Some p => MAPNAME p | None => None end in
  let nm := match properties community with
            | Some p => name p | None => None end in
  default "Unknown Community"
    (JS.or_else mapname (JS.or_else nm (Some "Unknown Community"))).

Definition communityId_of (community : Community) : string :=
  default (communityName_of community)
    (JS.or_else (id community) (Some (communityName_of community))).

(** The record written for a boundary with fewer than three vertices. *)
Definition degenerate_trend (communityId communityName : string) : Trend :=
  {| communityId := communityId;
     communityName := communityName;
     recentCount := 0;
     previousCount := 0;
     changePercent := 0%float;
     crimeTypes := ∅;
     timeRanges := {["6months" := {| recent := 0; previous := 0;
                                     range_changePercent := 0%float |}]} |}.

(** The callback of [communities.features.forEach]: the new [trends] and
    cache, or a thrown error (raised before anything is written). *)
Definition process_community (timeRange : string)
    (recentSpatialIndex previousSpatialIndex : SpatialIndex)
    (community : Community) (trends : gmap string Trend) (cache : Cache)
    : Completion (gmap string Trend * Cache) :=
  let communityName := communityName_of community in
  let communityId := communityId_of community in
  let communityCoords := getPolygonCoordinates (geometry community) in
  if (length communityCoords <? 3)%nat then
    Normal (<[communityId := degenerate_trend communityId communityName]> trends,
            cache)
  else
    match getCrimesInCommunityBounds community recentSpatialIndex (1 # 100)
            cache with
    | Thrown => Thrown
    | Normal (candidateRecentCrimes, cache1) =>
        match getCrimesInCommunityBounds community previousSpatialIndex
                (1 # 100) cache1 with
        | Thrown => Thrown
        | Normal (candidatePreviousCrimes, cache2) =>
            let communityRecentCrimes :=
              List.filter (crime_in_community communityCoords)
                candidateRecentCrimes in
            let communityPreviousCrimes :=
              List.filter (crime_in_community communityCoords)
                candidatePreviousCrimes in
            let recentCount := length communityRecentCrimes in
            let previousCount := length communityPreviousCrimes in
            let changePercent :=
              if (0 <? previousCount)%nat
              then ((Double.of_nat recentCount - Double.of_nat previousCount)
                    / Double.of_nat previousCount * 100)%float
              else 0%float in
            let sortedCrimeTypes :=
              fold_left count_type communityRecentCrimes ∅ in
            let timeRangeResult :=
              {| recent := recentCount;
                 previous := previousCount;
                 range_changePercent :=
                   Double.Math_min 100%float
                     (Double.Math_round changePercent) |} in
            let existingTimeRanges :=
              match trends !! communityId with
              | Some t => timeRanges t
              | None => ∅
              end in
            Normal
              (<[communityId :=
                   {| communityId := communityId;
                      communityName := communityName;
                      recentCount := recentCount;
                      previousCount := previousCount;
                      changePercent :=
                        Double.Math_min 100%float
                          (Double.Math_round changePercent);
                      crimeTypes := sortedCrimeTypes;
                      timeRanges :=
                        <[timeRange := timeRangeResult]> existingTimeRanges |}]>
                 trends,
               cache2)
        end
    end.

(** [communities.features.forEach(...)]: the state when the loop ends,
    and whether it ended by a thrown error. *)
Fixpoint communities_forEach (timeRange : string)
    (recentSpatialIndex previousSpatialIndex : SpatialIndex)
    (cs : list Community) (trends : gmap string Trend) (cache : Cache)
    : gmap string Trend * Cache * bool :=
  match cs with
  | [] => (trends, cache, false)
  | community :: rest =>
      match process_community timeRange recentSpatialIndex
              previousSpatialIndex community trends cache with
      | Thrown => (trends, cache, true)
      | Normal (trends', cache') =>
          communities_forEach timeRange recentSpatialIndex
            previousSpatialIndex rest trends' cache'
      end
  end.

(** [calculateSafetyTrends(communities, crimeData, timeRange,
    selectedCrimeTypes)]: the returned [trends] and the cache after the
    call.  [trends] starts as the empty object in every call.  The outer
    [catch] returns the [trends] written so far, and then
    [calculationCache.results] is not updated.  A caller that omits the
    last two arguments passes '1year' and [None].  The two counters of
    skipped dates are only logged and are left out. *)
Definition calculateSafetyTrends (clock : Clock) (cache : Cache)
    (communities : option CommunityCollection)
    (crimeData : option CrimeCollection) (timeRange : string)
    (selectedCrimeTypes : option (list string))
    : gmap string Trend * Cache :=
  let trends : gmap string Trend := ∅ in
  match communities with
  | Some {| features := Some cs |} =>
      match crimeData with
      | Some {| crime_features := Some (c0 :: crs) |} =>
          let all := c0 :: crs in
          let recentPeriodCrimes :=
            List.filter (fun crime =>
                           is_recent (crime_bucket clock timeRange
                                        selectedCrimeTypes crime)) all in
          let previousPeriodCrimes :=
            List.filter (fun crime =>
                           is_previous (crime_bucket clock timeRange
                                          selectedCrimeTypes crime)) all in
          let recentSpatialIndex :=
            createSpatialIndex
              (Some {| crime_features := Some recentPeriodCrimes |}) (1 # 100) in
          let previousSpatialIndex :=
            createSpatialIndex
              (Some {| crime_features := Some previousPeriodCrimes |})
              (1 # 100) in
          match communities_forEach timeRange recentSpatialIndex
                  previousSpatialIndex cs trends cache with
          | (trends', cache', true) => (trends', cache')
          | (trends', cache', false) =>
              (trends', {| communityBounds := communityBounds cache';
                           results := trends' |})
          end
      | _ => (trends, cache)
      end
  | _ => (trends, cache)
  end.

(** [getSafetyTrendsForTimeRange(trends, timeRange)]. *)
Definition getSafetyTrendsForTimeRange (trends : gmap string Trend)
    (timeRange : string) : gmap string Trend :=
  (fun trend =>
     match timeRanges trend !! timeRange with
     | Some timeRangeData =>
         let changePercent :=
           if (0 <? previous timeRangeData)%nat
           then ((Double.of_nat (recent timeRangeData)
                  - Double.of_nat (previous timeRangeData))
                 / Double.of_nat (previous timeRangeData) * 100)%float
           else 0%float in
         {| communityId := communityId trend;
            communityName := communityName trend;
            recentCount := recent timeRangeData;
            previousCount := previous timeRangeData;
            changePercent := changePercent;
            crimeTypes := crimeTypes trend;
            timeRanges := timeRanges trend |}
     | None => trend
     end) <$> trends.

(** ** The specification's own formulas *)

Module Spec.

(** Rounding to the nearest integer with a tie going away from zero:
    [floor (|x| + 1/2)] with the sign of [x]. *)
Definition round_half_away (x : float) : float :=
  match Prim2SF x with
  | S754_finite s m e =>
      if (0 <=? e)%Z then x
      else
        let n := ((Z.pos m * 2 + 2 ^ (- e)) / 2 ^ (1 - e))%Z in
        if (n =? 0)%Z then (if s then (-0)%float else 0%float)
        else Double.of_Z (if s then - n else n)
  | _ => x
  end.

(** The percent change as the specification words it. *)
Definition changePercent_half_away (recentCount previousCount : nat)
    : float :=
  if (0 <? previousCount)%nat
  then round_half_away
         (Double.Math_min 100%float
            ((Double.of_nat recentCount - Double.of_nat previousCount)
             / Double.of_nat previousCount * 100)%float)
  else 0%float.

Definition violent_crime_matches (label : string) : Prop :=
  ∀ otherType, In otherType otherSpecificTypes →
               JS.includes label otherType = false.

(** A label matches a selection: some selected category is the
    sentinel and the label has none of the four excluded substrings,
    or the label contains the selected category. *)
Definition category_matches (label : string) (selected : list string)
    : Prop :=
  ∃ type, In type selected
          ∧ ((type = "Violent Crime" ∧ violent_crime_matches label)
             ∨ JS.includes label type = true).

(** The same, with containment only for a category other than the
    sentinel. *)
Definition category_matches_other (label : string)
    (selected : list string) : Prop :=
  ∃ type, In type selected
          ∧ ((type = "Violent Crime" ∧ violent_crime_matches label)
             ∨ (type ≠ "Violent Crime" ∧ JS.includes label type = true)).


(** The edges that the loop of [pointInPolygon] visits: each vertex
    paired with the vertex before it, the first with the last. *)
Fixpoint edges_from (vj : Vertex) (vs : list Vertex)
    : list (Vertex * Vertex) :=
  match vs with
  | [] => []
  | vi :: rest => (vi, vj) :: edges_from vi rest
  end.

Definition edges (polygon : list Vertex) : list (Vertex * Vertex) :=
  edges_from (List.last polygon (0, 0)) polygon.

(** The on-edge test and the parity of the ray-casting test over a list
    of edges. *)
Definition on_edge (lat lon : Q) (e : Vertex * Vertex) : bool :=
  isPointOnLineSegment lat lon (fst e.1) (snd e.1) (fst e.2) (snd e.2).

Definition crossings (lat lon : Q) (es : list (Vertex * Vertex)) : bool :=
  fold_right (λ e odd, xorb (intersect lat lon e.1 e.2) odd) false es.

(** A vertex lies within a bounding box. *)
Definition covers (bounds : Bounds) (v : Vertex) : Prop :=
  minLat bounds <= fst v ∧ fst v <= maxLat bounds
  ∧ minLon bounds <= snd v ∧ snd v <= maxLon bounds.

(** A boundary whose geometry extracts to fewer than three vertices. *)
Definition degenerate (community : Community) : Prop :=
  (length (getPolygonCoordinates (geometry community)) < 3)%nat.

(** A boundary on which the callback of the loop throws: it is not
    degenerate, has no usable [id] and no [properties]. *)
Definition raises (community : Community) : Prop :=
  ¬ degenerate community
  ∧ JS.truthy (id community) = false
  ∧ properties community = None.

End Spec.

(** ** Sample data *)

Module Sample.

(** The unit square with vertices (0,0), (0,1), (1,1), (1,0) as
    [[lat, lon]]; GeoJSON positions are [[lon, lat]]. *)
Definition square_geometry : Geometry :=
  Polygon [[ [0; 0]; [1; 0]; [1; 1]; [0; 1] ]].

Definition square : Community :=
  {| id := Some "square";
     properties := Some {| MAPNAME := Some "Square"; name := Some "Square" |};
     geometry := Some square_geometry |}.

(** A boundary of two vertices. *)
Definition sliver : Community :=
  {| id := Some "sliver";
     properties := Some {| MAPNAME := Some "Sliver"; name := Some "Sliver" |};
     geometry := Some (Polygon [[ [0; 0]; [1; 0] ]]) |}.

Definition crime_at (lon lat : Q) (label : string) (year : Z) : Crime :=
  {| crime_coordinates := Some [lon; lat];
     crime_properties :=
       Some {| text_general_code := Some label;
               dispatch_date_time :=
                 DateValid {| getTime := 0; getFullYear := year |} |} |}.

Definition centre (year : Z) : Crime :=
  crime_at (1 # 2) (1 # 2) "Thefts" year.

Definition clock : Clock :=
  {| dynamicNow := 0; sixMonthsAgo := 0; twelveMonthsAgo := 0 |}.

Definition empty_cache : Cache :=
  {| communityBounds := ∅; results := ∅ |}.

Definition communities (cs : list Community) : option CommunityCollection :=
  Some {| features := Some cs |}.

Definition crimes (cs : list Crime) : option CrimeCollection :=
  Some {| crime_features := Some cs |}.

(** Two incidents in 2025, one in 2024, three in 2023. *)
Definition three_years : list Crime :=
  [centre 2025; centre 2025; centre 2024; centre 2023; centre 2023;
   centre 2023].

(** Seven incidents in 2025 and eight in 2024. *)
Definition seven_eight : list Crime :=
  repeat (centre 2025) 7 ++ repeat (centre 2024) 8.

(** A point 0.000005 degrees north of the top edge of the square. *)
Definition north_of_edge : Crime :=
  crime_at (1 # 2) (1000005 # 1000000) "Thefts" 2025.

Definition tagged : Crime :=
  crime_at (1 # 2) (1 # 2) "Violent Crime - Vandalism/Criminal Mischief" 2025.


(** A triangle in Philadelphia, in doubles. *)
Definition philadelphia_triangle : list Binary64.Vertex :=
  [(40.03, -75.18); (39.92, -75.19); (39.96, -75.06)]%float.

End Sample.

(** ** Counting without the index *)

Module Direct.

(** The test that the query applies to a crime of a grid cell: the
    crime has two coordinates and lies within the bounds. *)
Definition in_bounds (bounds : Bounds) (crime : Crime) : bool :=
  match lon_lat (crime_coordinates crime) with
  | Some (lon, lat) => isPointInBounds lat lon bounds
  | None => false
  end.

(** A crime within the bounds that the polygon contains. *)
Definition inside (communityCoords : list Vertex) (bounds : Bounds)
    (crime : Crime) : bool :=
  in_bounds bounds crime && crime_in_community communityCoords crime.

(** A crime whose [text_general_code] is the given label. *)
Definition labelled (label : string) (crime : Crime) : bool :=
  match crime_properties crime with
  | Some p =>
      JS.truthy (text_general_code p)
      && String.eqb (default "" (text_general_code p)) label
  | None => false
  end.

(** The value of [crimeTypes] under a label that [n] counted crimes
    carry: no key for none and for '__proto__', the string for a
    function member of [Object.prototype], the count for any other
    label. *)
Definition counted_as (label : string) (n : nat) : option TypeCount :=
  match n with
  | O => None
  | S k =>
      if String.eqb label "__proto__" then None
      else if inherits_function label then Some (Appended label (S k))
      else Some (Counted (S k))
  end.

(** The crimes that [calculateSafetyTrends] puts in a period bucket. *)
Definition bucket (period : Period → bool) (clock : Clock)
    (timeRange : string) (selectedCrimeTypes : option (list string))
    (crimes : list Crime) : list Crime :=
  List.filter (fun crime =>
                 period (crime_bucket clock timeRange selectedCrimeTypes crime))
    crimes.

End Direct.

(** ** Helpers of [window.ft] *)

(** [uniq(arr)], that is [[...new Set(arr)]]: the elements of [arr] in
    the order of their first occurrence.  The elements are values that
    a [Set] compares by equality (strings, integers). *)
Definition uniq {A : Type} `{EqDecision A} (arr : list A) : list A :=
  fold_left (fun set x => if decide (x ∈ set) then set else set ++ [x]) arr [].

(** ** Centre of a community ([main.js]) *)

(** The [validCoords] of [calculateCommunityCenter]: the positions with
    at least two numbers, as [(lng, lat)]. *)
Definition validCoords (coordinates : list (list Q)) : list (Q * Q) :=
  flat_map (fun coord =>
              match coord with
              | c0 :: c1 :: _ => [(c0, c1)]
              | _ => []
              end) coordinates.

(** The part of [calculateCommunityCenter] after the [switch]:
    [null] for fewer than three valid positions, else
    [[avgLat, avgLng]].  The sum and the quotient are exact here and
    rounded in the source: only whether a centre is returned is stated
    of this definition. *)
Definition center_of (coordinates : list (list Q)) : option (Q * Q) :=
  let valid := validCoords coordinates in
  if (length valid <? 3)%nat then None
  else
    let totalLng := fold_left (fun sum coord => sum + fst coord) valid 0 in
    let totalLat := fold_left (fun sum coord => sum + snd coord) valid 0 in
    let n := inject_Z (Z.of_nat (length valid)) in
    Some (totalLat / n, totalLng / n).

(** [calculateCommunityCenter(geometry)].  [coordinates.filter] throws
    when [geometry.coordinates[0]] (for a MultiPolygon
    [geometry.coordinates[0][0]]) is not there. *)
Definition calculateCommunityCenter (geometry : option Geometry)
    : Completion (option (Q * Q)) :=
  match geometry with
  | None => Normal None
  | Some (Polygon (outerRing :: _)) => Normal (center_of outerRing)
  | Some (Polygon []) => Thrown
  | Some (MultiPolygon ((outerRing :: _) :: _)) => Normal (center_of outerRing)
  | Some (MultiPolygon _) => Thrown
  | Some (GeometryCollection _) | Some (OtherGeometry _) => Normal None
  end.

(** ** Lines of a CSV file ([main.js]) *)

Module Csv.

(** A JavaScript string as the list of its UTF-16 code units.  The loop
    of [parseCsvLine] iterates over code points; the two characters it
    tests are single code units and so is every white space character,
    and appending the code points one by one appends their code units,
    so the loop is taken over code units. *)
Definition JSString : Type := list N.

Definition quote : N := 34.
Definition comma : N := 44.

(** The white space and line terminator characters that
    [String.prototype.trim] removes. *)
Definition isWhiteSpace (c : N) : bool :=
  existsb (N.eqb c)
    [9; 10; 11; 12; 13; 32; 160; 5760; 8232; 8233; 8239; 8287; 12288;
     65279]%N
  || ((8192 <=? c) && (c <=? 8202))%N.

Fixpoint trimStart (s : JSString) : JSString :=
  match s with
  | c :: rest => if isWhiteSpace c then trimStart rest else s
  | [] => []
  end.

Definition trimEnd (s : JSString) : JSString := rev (trimStart (rev s)).

Definition trim (s : JSString) : JSString := trimEnd (trimStart s).

(** The [for (const char of line)] loop, and the last [values.push]
    after it. *)
Fixpoint parseCsvLine_loop (line : JSString) (values : list JSString)
    (inQuotes : bool) (currentValue : JSString) : list JSString :=
  match line with
  | [] => values ++ [trim currentValue]
  | char :: rest =>
      if (char =? quote)%N then
        parseCsvLine_loop rest values (negb inQuotes) currentValue
      else if (char =? comma)%N && negb inQuotes then
        parseCsvLine_loop rest (values ++ [trim currentValue]) inQuotes []
      else
        parseCsvLine_loop rest values inQuotes (currentValue ++ [char])
  end.

Definition parseCsvLine (line : JSString) : list JSString :=
  parseCsvLine_loop line [] false [].

(** A field as a CSV writer puts it on a line: between two quotes or as
    it is. *)
Definition written (field : bool * JSString) : JSString :=
  if field.1 then quote :: field.2 ++ [quote] else field.2.

(** The fields of a line, separated by commas. *)
Fixpoint line_of (fields : list (bool * JSString)) : JSString :=
  match fields with
  | [] => []
  | [field] => written field
  | field :: rest => written field ++ comma :: line_of rest
  end.

End Csv.

(** * Properties *)

(** ** Malformed input *)

(** C9.  When the neighbourhood collection or the point dataset is
    absent, or lacks its [features] field, [calculateSafetyTrends]
    returns the empty mapping: no record is produced and the cache is
    left as it was.  The function is total, so nothing is thrown. *)
Theorem malformed_input_empty_result
    (clock : Clock) (cache : Cache)
    (communities : option CommunityCollection)
    (crimeData : option CrimeCollection) (timeRange : string)
    (selectedCrimeTypes : option (list string)) :
  communities = None
  ∨ communities = Some {| features := None |}
  ∨ crimeData = None
  ∨ crimeData = Some {| crime_features := None |} →
  calculateSafetyTrends clock cache communities crimeData timeRange
    selectedCrimeTypes = (∅, cache).
Proof.
  intros [-> | [-> | [-> | ->]]]; unfold calculateSafetyTrends; try reflexivity.
  - destruct communities as [[[cs|]]|]; reflexivity.
  - destruct communities as [[[cs|]]|]; reflexivity.
Qed.

Lemma malformed_input_empty_result_witness :
  calculateSafetyTrends Sample.clock Sample.empty_cache None
    (Sample.crimes Sample.three_years) "1year" None
  = (∅, Sample.empty_cache).
Proof.
  apply malformed_input_empty_result. left. reflexivity.
Defined.

(** ** Projection on a time window *)

(** C10.  [getSafetyTrendsForTimeRange] keeps the identifiers of the
    mapping.  A record with a sub-record for the window comes back with
    the counts of the sub-record and the percentage recomputed from them
    as [(recent - previous) / previous * 100] (in double precision) when
    [previous > 0] and 0 otherwise, without [Math.round] and without
    cap, its other fields unchanged; a record without such a sub-record
    comes back unchanged. *)
Theorem projection_on_window
    (trends : gmap string Trend) (timeRange communityId' : string) :
  match trends !! communityId' with
  | None => getSafetyTrendsForTimeRange trends timeRange !! communityId' = None
  | Some trend =>
      match timeRanges trend !! timeRange with
      | Some timeRangeData =>
          ∃ projected,
            getSafetyTrendsForTimeRange trends timeRange !! communityId'
            = Some projected
            ∧ recentCount projected = recent timeRangeData
            ∧ previousCount projected = previous timeRangeData
            ∧ changePercent projected
              = (if (0 <? previous timeRangeData)%nat
                 then (Double.of_nat (recent timeRangeData)
                       - Double.of_nat (previous timeRangeData))
                      / Double.of_nat (previous timeRangeData) * 100
                 else 0)%float
            ∧ communityId projected = communityId trend
            ∧ communityName projected = communityName trend
            ∧ crimeTypes projected = crimeTypes trend
            ∧ timeRanges projected = timeRanges trend
      | None =>
          getSafetyTrendsForTimeRange trends timeRange !! communityId'
          = Some trend
      end
  end.
Proof.
  unfold getSafetyTrendsForTimeRange. rewrite lookup_fmap.
  destruct (trends !! communityId') as [trend|] eqn:Hl; simpl; [|done].
  destruct (timeRanges trend !! timeRange) as [d|] eqn:Hd; [|done].
  eexists. split; [reflexivity|]. simpl. repeat split; reflexivity.
Qed.

(** ** Category filter *)

Lemma violent_crime_matches_iff (label : string) :
  negb (existsb (fun otherType => JS.includes label otherType)
          otherSpecificTypes) = true
  ↔ Spec.violent_crime_matches label.
Proof.
  rewrite negb_true_iff. unfold Spec.violent_crime_matches. split.
  - intros Hex otherType Hin.
    destruct (JS.includes label otherType) eqn:Hinc; [|reflexivity].
    assert (existsb (fun o => JS.includes label o) otherSpecificTypes = true)
      as Habs by (apply existsb_exists; eauto).
    congruence.
  - intros Hall.
    destruct (existsb _ otherSpecificTypes) eqn:Hex; [|reflexivity].
    apply existsb_exists in Hex as (o & Hin & Hinc).
    rewrite (Hall o Hin) in Hinc. discriminate.
Qed.

Lemma selected_loop_iff (label : string) (types : list string) :
  selected_loop label types = true ↔ Spec.category_matches_other label types.
Proof.
  unfold Spec.category_matches_other.
  induction types as [|type rest IH]; cbn [selected_loop].
  - split; [discriminate | intros (? & [] & _)].
  - destruct (String.eqb_spec type "Violent Crime") as [Heq | Hne].
    + cbv zeta.
      destruct (negb (existsb (λ o, JS.includes label o) otherSpecificTypes))
        eqn:Hv.
      * split; [intros _ | reflexivity].
        exists type. split; [now left|]. left. split; [assumption|].
        now apply violent_crime_matches_iff.
      * rewrite IH. split.
        -- intros (t & Hin & Ht). exists t. split; [now right | assumption].
        -- intros (t & [<- | Hin] & Ht); [|eauto].
           destruct Ht as [[_ Hvm] | [Hc _]]; [|contradiction].
           apply violent_crime_matches_iff in Hvm. congruence.
    + destruct (JS.includes label type) eqn:Hinc.
      * split; [intros _ | reflexivity].
        exists type. split; [now left|]. right. now split.
      * rewrite IH. split.
        -- intros (t & Hin & Ht). exists t. split; [now right | assumption].
        -- intros (t & [<- | Hin] & Ht); [|eauto].
           destruct Ht as [[Hc _] | [_ Hc]]; [contradiction | congruence].
Qed.

(** C7, as amended.  With no selection (absent or empty) every record
    matches.  Otherwise a record matches exactly when, for some selected
    category, either the category is the sentinel "Violent Crime" and
    the label contains none of the four excluded substrings, or the
    category is not the sentinel and the label contains it. *)
Theorem category_filter_semantics
    (selected : list string) (crime : Crime) (p : CrimeProperties) :
  crime_properties crime = Some p →
  isCrimeTypeSelected None crime = Normal true
  ∧ isCrimeTypeSelected (Some []) crime = Normal true
  ∧ (selected ≠ [] →
     (isCrimeTypeSelected (Some selected) crime = Normal true
      ↔ Spec.category_matches_other (description_of p) selected)).
Proof.
  intros Hp. repeat split; try reflexivity.
  - intros Hsel. destruct selected as [|t ts]; [contradiction|].
    unfold isCrimeTypeSelected in Hsel. rewrite Hp in Hsel.
    apply selected_loop_iff. congruence.
  - intros Hm. destruct selected as [|t ts]; [contradiction|].
    unfold isCrimeTypeSelected. rewrite Hp. f_equal.
    now apply selected_loop_iff.
Qed.

Lemma category_filter_semantics_witness :
  isCrimeTypeSelected None (Sample.centre 2025) = Normal true
  ∧ isCrimeTypeSelected (Some []) (Sample.centre 2025) = Normal true
  ∧ (["Theft"] ≠ [] →
     (isCrimeTypeSelected (Some ["Theft"]) (Sample.centre 2025) = Normal true
      ↔ Spec.category_matches_other "Thefts" ["Theft"])).
Proof.
  apply (category_filter_semantics ["Theft"] (Sample.centre 2025)
           {| text_general_code := Some "Thefts";
              dispatch_date_time :=
                DateValid {| getTime := 0; getFullYear := 2025 |} |}).
  reflexivity.
Defined.

(** C7, as stated, fails: with the selection ["Violent Crime"], a label
    that contains both "Violent Crime" and an excluded substring
    contains a selected category, yet the record does not match. *)
Lemma category_filter_as_stated_fails :
  ¬ (∀ (selected : list string) (crime : Crime) (p : CrimeProperties),
       crime_properties crime = Some p →
       selected ≠ [] →
       (isCrimeTypeSelected (Some selected) crime = Normal true
        ↔ Spec.category_matches (description_of p) selected)).
Proof.
  intros H.
  specialize (H ["Violent Crime"] Sample.tagged
                {| text_general_code :=
                     Some "Violent Crime - Vandalism/Criminal Mischief";
                   dispatch_date_time :=
                     DateValid {| getTime := 0; getFullYear := 2025 |} |}
                eq_refl).
  destruct H as [_ H]; [discriminate|].
  assert (isCrimeTypeSelected (Some ["Violent Crime"]) Sample.tagged
          = Normal false) as Hfalse by reflexivity.
  rewrite Hfalse in H.
  assert (Normal false = Normal true) as Habs; [|discriminate].
  apply H. exists "Violent Crime". split; [now left|]. right. reflexivity.
Qed.

(** ** Records written by the aggregation loop *)

(** A property of trend records that every step of the loop keeps is a
    property of every record [calculateSafetyTrends] returns. *)
Lemma communities_forEach_invariant (P : Trend → Prop) (timeRange : string)
    (recentSpatialIndex previousSpatialIndex : SpatialIndex) :
  (∀ community trends cache trends' cache',
     map_Forall (λ _, P) trends →
     process_community timeRange recentSpatialIndex previousSpatialIndex
       community trends cache = Normal (trends', cache') →
     map_Forall (λ _, P) trends') →
  ∀ cs trends cache,
    map_Forall (λ _, P) trends →
    map_Forall (λ _, P)
      (communities_forEach timeRange recentSpatialIndex previousSpatialIndex
         cs trends cache).1.1.
Proof.
  intros Hstep cs. induction cs as [|community rest IH]; intros trends cache Hall.
  - exact Hall.
  - simpl.
    destruct (process_community _ _ _ community trends cache)
      as [[trends' cache']|] eqn:Hp.
    + apply IH. eapply Hstep; eassumption.
    + exact Hall.
Qed.

Lemma calculateSafetyTrends_invariant (P : Trend → Prop) (timeRange : string) :
  (∀ recentSpatialIndex previousSpatialIndex community trends cache trends'
     cache',
     map_Forall (λ _, P) trends →
     process_community timeRange recentSpatialIndex previousSpatialIndex
       community trends cache = Normal (trends', cache') →
     map_Forall (λ _, P) trends') →
  ∀ clock cache communities crimeData selectedCrimeTypes,
    map_Forall (λ _, P)
      (calculateSafetyTrends clock cache communities crimeData timeRange
         selectedCrimeTypes).1.
Proof.
  intros Hstep clock cache communities crimeData sel.
  unfold calculateSafetyTrends.
  destruct communities as [[[cs|]]|]; try apply map_Forall_empty.
  destruct crimeData as [[[[|c0 crs]|]]|]; try apply map_Forall_empty.
  match goal with
  | |- context [communities_forEach ?t ?ri ?pi ?l ?tr ?c] =>
      pose proof (communities_forEach_invariant P t ri pi (Hstep ri pi) l tr c
                    (map_Forall_empty _)) as Hinv;
      destruct (communities_forEach t ri pi l tr c) as [[trends' cache'] []]
  end; exact Hinv.
Qed.

(** What one step of the loop writes: a single record under the
    identifier of the boundary, either the zero record of a degenerate
    boundary or a record built from two counts. *)
Lemma process_community_writes (timeRange : string)
    (recentSpatialIndex previousSpatialIndex : SpatialIndex)
    (community : Community) (trends trends' : gmap string Trend)
    (cache cache' : Cache) :
  process_community timeRange recentSpatialIndex previousSpatialIndex
    community trends cache = Normal (trends', cache') →
  ∃ record,
    trends' = <[communityId_of community := record]> trends
    ∧ (record = degenerate_trend (communityId_of community)
                  (communityName_of community)
       ∨ (changePercent record
          = Double.Math_min 100%float
              (Double.Math_round
                 (if (0 <? previousCount record)%nat
                  then (Double.of_nat (recentCount record)
                        - Double.of_nat (previousCount record))
                       / Double.of_nat (previousCount record) * 100
                  else 0)%float)
          ∧ ∃ timeRangeResult,
              timeRanges record
              = <[timeRange := timeRangeResult]>
                  (match trends !! communityId_of community with
                   | Some t => timeRanges t
                   | None => ∅
                   end))).
Proof.
  unfold process_community.
  destruct (length (getPolygonCoordinates (geometry community)) <? 3)%nat.
  - intros [= <- <-]. eexists. split; [reflexivity | now left].
  - destruct (getCrimesInCommunityBounds community recentSpatialIndex _ cache)
      as [[candidateRecent cache1]|]; [|discriminate].
    destruct (getCrimesInCommunityBounds community previousSpatialIndex _ cache1)
      as [[candidatePrevious cache2]|]; [|discriminate].
    intros [= <- <-]. eexists. split; [reflexivity|]. right. simpl.
    split; [reflexivity | eexists; reflexivity].
Qed.

(** ** Percent change *)

Lemma process_community_percent (timeRange : string)
    (recentSpatialIndex previousSpatialIndex : SpatialIndex)
    (community : Community) (trends : gmap string Trend) (cache : Cache)
    (trends' : gmap string Trend) (cache' : Cache) :
  map_Forall
    (λ _ r,
       changePercent r
       = if (0 <? previousCount r)%nat
         then Double.Math_min 100%float
                (Double.Math_round
                   ((Double.of_nat (recentCount r)
                     - Double.of_nat (previousCount r))
                    / Double.of_nat (previousCount r) * 100)%float)
         else 0%float) trends →
  process_community timeRange recentSpatialIndex previousSpatialIndex
    community trends cache = Normal (trends', cache') →
  map_Forall
    (λ _ r,
       changePercent r
       = if (0 <? previousCount r)%nat
         then Double.Math_min 100%float
                (Double.Math_round
                   ((Double.of_nat (recentCount r)
                     - Double.of_nat (previousCount r))
                    / Double.of_nat (previousCount r) * 100)%float)
         else 0%float) trends'.
Proof.
  intros Hall Hp.
  apply process_community_writes in Hp as (record & -> & Hrec).
  apply map_Forall_insert_2; [|exact Hall].
  destruct Hrec as [-> | [Hpct _]]; [reflexivity|].
  rewrite Hpct. destruct (0 <? previousCount record)%nat; reflexivity.
Qed.

(** C3, as amended.  Every record that [calculateSafetyTrends] returns
    has, when [previousCount > 0], [changePercent] equal to
    [min (100, round ((recentCount - previousCount) / previousCount * 100))],
    the quotient and the product taken in double precision, where
    [round] is [Math.round] (nearest integer, a tie going to the larger
    integer) and the cap at 100 has no lower counterpart; when
    [previousCount = 0], [changePercent] is 0. *)
Theorem changePercent_formula
    (clock : Clock) (cache : Cache)
    (communities : option CommunityCollection)
    (crimeData : option CrimeCollection) (timeRange : string)
    (selectedCrimeTypes : option (list string))
    (communityId' : string) (record : Trend) :
  (calculateSafetyTrends clock cache communities crimeData timeRange
     selectedCrimeTypes).1 !! communityId' = Some record →
  ((0 < previousCount record)%nat →
   changePercent record
   = Double.Math_min 100%float
       (Double.Math_round
          ((Double.of_nat (recentCount record)
            - Double.of_nat (previousCount record))
           / Double.of_nat (previousCount record) * 100)%float))
  ∧ (previousCount record = 0%nat → changePercent record = 0%float).
Proof.
  intros Hl.
  pose proof (calculateSafetyTrends_invariant _ timeRange
                (process_community_percent timeRange)
                clock cache communities crimeData selectedCrimeTypes
                communityId' record Hl) as H.
  simpl in H. rewrite H. split.
  - intros Hpos. apply Nat.ltb_lt in Hpos. now rewrite Hpos.
  - intros ->. reflexivity.
Qed.

(** The rounding of the quotient shows in the result: 63 recent and 40
    previous incidents give 57 (the product is 57.49999999999999), 29
    and 40 give -28 (the product is -27.500000000000004). *)
Lemma percent_in_double_precision :
  Double.Math_min 100%float
    (Double.Math_round
       ((Double.of_nat 63 - Double.of_nat 40) / Double.of_nat 40 * 100)%float)
  = 57%float
  ∧ Double.Math_min 100%float
      (Double.Math_round
         ((Double.of_nat 29 - Double.of_nat 40) / Double.of_nat 40 * 100)%float)
    = (-28)%float.
Proof. split; vm_compute; reflexivity. Qed.

(** The unit square with seven incidents in 2025 and eight in 2024,
    window '1year': the record has the counts 7 and 8 and the
    percentage -12 ([Math.round(-12.5)]). *)
Lemma seven_eight_run :
  ∃ record,
    (calculateSafetyTrends Sample.clock Sample.empty_cache
       (Sample.communities [Sample.square])
       (Sample.crimes Sample.seven_eight) "1year" None).1 !! "square"
    = Some record
    ∧ recentCount record = 7%nat
    ∧ previousCount record = 8%nat
    ∧ changePercent record = (-12)%float.
Proof.
  eexists. split; [vm_compute; reflexivity|]. repeat split.
Qed.

Lemma changePercent_formula_witness :
  ∃ record,
    (calculateSafetyTrends Sample.clock Sample.empty_cache
       (Sample.communities [Sample.square])
       (Sample.crimes Sample.seven_eight) "1year" None).1 !! "square"
    = Some record
    ∧ ((0 < previousCount record)%nat →
       changePercent record
       = Double.Math_min 100%float
           (Double.Math_round
              ((Double.of_nat (recentCount record)
                - Double.of_nat (previousCount record))
               / Double.of_nat (previousCount record) * 100)%float))
    ∧ (previousCount record = 0%nat → changePercent record = 0%float).
Proof.
  eexists. split; [vm_compute; reflexivity|].
  apply (changePercent_formula Sample.clock Sample.empty_cache
           (Sample.communities [Sample.square])
           (Sample.crimes Sample.seven_eight) "1year" None "square").
  vm_compute; reflexivity.
Defined.

(** C3, as stated, fails: with 7 recent and 8 previous incidents the
    percentage before rounding is -12.5; the code stores -12, rounding
    half away from zero gives -13. *)
Lemma changePercent_half_away_fails :
  ¬ (∀ (clock : Clock) (cache : Cache)
       (communities : option CommunityCollection)
       (crimeData : option CrimeCollection) (timeRange : string)
       (selectedCrimeTypes : option (list string))
       (communityId' : string) (record : Trend),
       (calculateSafetyTrends clock cache communities crimeData timeRange
          selectedCrimeTypes).1 !! communityId' = Some record →
       changePercent record
       = Spec.changePercent_half_away (recentCount record)
           (previousCount record)).
Proof.
  intros H. destruct seven_eight_run as (record & Hl & Hr & Hp & Hc).
  specialize (H _ _ _ _ _ _ _ _ Hl). rewrite Hr, Hp, Hc in H.
  apply (f_equal (λ x, (x <? (-12.5))%float)) in H.
  vm_compute in H. discriminate.
Qed.

(** ** Degenerate boundaries *)

Lemma process_community_degenerate (timeRange : string)
    (recentSpatialIndex previousSpatialIndex : SpatialIndex)
    (community : Community) (trends : gmap string Trend) (cache : Cache) :
  Spec.degenerate community →
  process_community timeRange recentSpatialIndex previousSpatialIndex
    community trends cache
  = Normal (<[communityId_of community :=
                degenerate_trend (communityId_of community)
                  (communityName_of community)]> trends, cache).
Proof.
  unfold Spec.degenerate, process_community. intros Hd.
  apply Nat.ltb_lt in Hd. now rewrite Hd.
Qed.

Lemma getCrimesInCommunityBounds_normal (community : Community)
    (spatialIndex : SpatialIndex) (gridSize : Q) (cache : Cache)
    (key : option string) :
  bounds_key community = Normal key →
  ∃ crimes cache',
    getCrimesInCommunityBounds community spatialIndex gridSize cache
    = Normal (crimes, cache').
Proof.
  intros Hk. unfold getCrimesInCommunityBounds. rewrite Hk.
  destruct (communityBounds cache !! key); [eauto|].
  destruct (calculateCommunityBounds community); eauto.
Qed.

Lemma process_community_normal (timeRange : string)
    (recentSpatialIndex previousSpatialIndex : SpatialIndex)
    (community : Community) (trends : gmap string Trend) (cache : Cache) :
  ¬ Spec.raises community →
  ∃ trends' cache',
    process_community timeRange recentSpatialIndex previousSpatialIndex
      community trends cache = Normal (trends', cache').
Proof.
  intros Hnr.
  destruct (decide (Spec.degenerate community)) as [Hd | Hnd].
  - rewrite process_community_degenerate by assumption. eauto.
  - assert (∃ key, bounds_key community = Normal key) as [key Hk].
    { unfold bounds_key.
      destruct (JS.truthy (id community)) eqn:Hid; [eauto|].
      destruct (properties community) eqn:Hprops; [eauto|].
      exfalso. apply Hnr. now repeat split. }
    unfold process_community.
    destruct (length (getPolygonCoordinates (geometry community)) <? 3)%nat;
      [eauto|].
    destruct (getCrimesInCommunityBounds_normal community recentSpatialIndex
                (1 # 100) cache key Hk) as (cr & cache1 & ->).
    destruct (getCrimesInCommunityBounds_normal community previousSpatialIndex
                (1 # 100) cache1 key Hk) as (cp & cache2 & ->).
    eauto.
Qed.

Lemma communities_forEach_app (timeRange : string)
    (recentSpatialIndex previousSpatialIndex : SpatialIndex)
    (before rest : list Community) (trends : gmap string Trend)
    (cache : Cache) :
  Forall (λ c, ¬ Spec.raises c) before →
  ∃ trends' cache',
    communities_forEach timeRange recentSpatialIndex previousSpatialIndex
      (before ++ rest) trends cache
    = communities_forEach timeRange recentSpatialIndex previousSpatialIndex
        rest trends' cache'.
Proof.
  intros Hall. revert trends cache.
  induction Hall as [|c before Hc _ IH]; intros trends cache.
  - simpl. eauto.
  - destruct (process_community_normal timeRange recentSpatialIndex
                previousSpatialIndex c trends cache Hc) as (t' & c' & Hp).
    simpl. rewrite Hp. apply IH.
Qed.

(** A zero record under an identifier stays one while the loop visits
    boundaries that have another identifier or are degenerate. *)
Lemma communities_forEach_keeps_zero (timeRange : string)
    (recentSpatialIndex previousSpatialIndex : SpatialIndex)
    (communityId' : string) (after : list Community) :
  Forall (λ c, communityId_of c = communityId' → Spec.degenerate c) after →
  ∀ (trends : gmap string Trend) (cache : Cache),
    (∃ r, trends !! communityId' = Some r
          ∧ recentCount r = 0%nat ∧ previousCount r = 0%nat
          ∧ changePercent r = 0%float) →
    ∃ r, (communities_forEach timeRange recentSpatialIndex
            previousSpatialIndex after trends cache).1.1 !! communityId'
         = Some r
         ∧ recentCount r = 0%nat ∧ previousCount r = 0%nat
         ∧ changePercent r = 0%float.
Proof.
  induction 1 as [|c after Hc _ IH]; intros trends cache Hz; [exact Hz|].
  simpl.
  destruct (process_community _ _ _ c trends cache) as [[trends' cache']|]
    eqn:Hp; [|exact Hz].
  apply IH.
  destruct (decide (communityId_of c = communityId')) as [Heq | Hne].
  - rewrite (process_community_degenerate _ _ _ _ _ _ (Hc Heq)) in Hp.
    injection Hp as <- <-. rewrite Heq, lookup_insert_eq.
    eexists. split; [reflexivity|]. now repeat split.
  - apply process_community_writes in Hp as (record & -> & _).
    now rewrite lookup_insert_ne.
Qed.

(** C4, as amended.  When both collections are present and the point
    dataset is not empty, a boundary that extracts to fewer than three
    vertices, that no raising boundary precedes, and whose identifier is
    shared by no later non-degenerate boundary, gets a record with
    [recentCount = 0], [previousCount = 0] and [changePercent = 0]; the
    step of the loop that handles it ends normally, writing that record
    whatever the state, so the loop goes on. *)
Theorem degenerate_boundary_zero_record
    (clock : Clock) (cache : Cache) (before after : list Community)
    (community : Community) (crime : Crime) (others : list Crime)
    (timeRange : string) (selectedCrimeTypes : option (list string)) :
  Spec.degenerate community →
  Forall (λ c, ¬ Spec.raises c) before →
  Forall (λ c, communityId_of c = communityId_of community →
               Spec.degenerate c) after →
  (∃ record,
     (calculateSafetyTrends clock cache
        (Some {| features := Some (before ++ community :: after) |})
        (Some {| crime_features := Some (crime :: others) |})
        timeRange selectedCrimeTypes).1 !! communityId_of community
     = Some record
     ∧ recentCount record = 0%nat
     ∧ previousCount record = 0%nat
     ∧ changePercent record = 0%float)
  ∧ (∀ recentSpatialIndex previousSpatialIndex trends cache',
       process_community timeRange recentSpatialIndex previousSpatialIndex
         community trends cache'
       = Normal (<[communityId_of community :=
                     degenerate_trend (communityId_of community)
                       (communityName_of community)]> trends, cache')).
Proof.
  intros Hd Hbefore Hafter. split.
  - unfold calculateSafetyTrends.
    match goal with
    | |- context [communities_forEach ?t ?ri ?pi _ ?tr ?c] =>
        destruct (communities_forEach_app t ri pi before (community :: after)
                    tr c Hbefore) as (trends1 & cache1 & ->);
        pose proof (communities_forEach_keeps_zero t ri pi
                      (communityId_of community) after Hafter
                      (<[communityId_of community :=
                           degenerate_trend (communityId_of community)
                             (communityName_of community)]> trends1) cache1)
          as Hkeep
    end.
    cbn [communities_forEach].
    rewrite (process_community_degenerate _ _ _ _ _ _ Hd).
    destruct Hkeep as (r & Hl & Hr).
    { rewrite lookup_insert_eq. eexists. split; [reflexivity|].
      now repeat split. }
    destruct (communities_forEach _ _ _ after _ cache1)
      as [[trends2 cache2] []]; simpl in Hl |- *; eauto.
  - intros. now apply process_community_degenerate.
Qed.

Lemma degenerate_boundary_zero_record_witness :
  (∃ record,
     (calculateSafetyTrends Sample.clock Sample.empty_cache
        (Some {| features := Some ([Sample.square] ++ Sample.sliver :: []) |})
        (Some {| crime_features := Some (Sample.centre 2025 :: []) |})
        "1year" None).1 !! communityId_of Sample.sliver
     = Some record
     ∧ recentCount record = 0%nat
     ∧ previousCount record = 0%nat
     ∧ changePercent record = 0%float)
  ∧ (∀ recentSpatialIndex previousSpatialIndex trends cache',
       process_community "1year" recentSpatialIndex previousSpatialIndex
         Sample.sliver trends cache'
       = Normal (<[communityId_of Sample.sliver :=
                     degenerate_trend (communityId_of Sample.sliver)
                       (communityName_of Sample.sliver)]> trends, cache')).
Proof.
  apply (degenerate_boundary_zero_record Sample.clock Sample.empty_cache
           [Sample.square] [] Sample.sliver (Sample.centre 2025) []
           "1year" None).
  - unfold Spec.degenerate. vm_compute. lia.
  - repeat constructor. intros (_ & Hid & _). vm_compute in Hid. discriminate.
  - constructor.
Defined.

(** C4, as stated, fails: with an empty point dataset the call returns
    before the loop and a degenerate boundary gets no record. *)
Lemma degenerate_boundary_no_record_without_points :
  ¬ (∀ (clock : Clock) (cache : Cache) (cs : list Community)
       (crimeData : option CrimeCollection) (timeRange : string)
       (selectedCrimeTypes : option (list string)) (community : Community),
       In community cs →
       Spec.degenerate community →
       ∃ record,
         (calculateSafetyTrends clock cache
            (Some {| features := Some cs |}) crimeData timeRange
            selectedCrimeTypes).1 !! communityId_of community
         = Some record
         ∧ recentCount record = 0%nat
         ∧ previousCount record = 0%nat
         ∧ changePercent record = 0%float).
Proof.
  intros H.
  destruct (H Sample.clock Sample.empty_cache [Sample.sliver]
              (Sample.crimes []) "1year" None Sample.sliver)
    as (record & Hl & _).
  - now left.
  - unfold Spec.degenerate. vm_compute. lia.
  - vm_compute in Hl. discriminate.
Qed.

(** ** Several windows *)

(** A record returned for a window holds no sub-record of any other
    window, '6months' of the degenerate record apart: [trends] is built
    from the empty object in every call, whatever was computed and
    cached before. *)
Lemma process_community_windows (timeRange window : string)
    (recentSpatialIndex previousSpatialIndex : SpatialIndex)
    (community : Community) (trends : gmap string Trend) (cache : Cache)
    (trends' : gmap string Trend) (cache' : Cache) :
  window ≠ timeRange → window ≠ "6months" →
  map_Forall (λ _ r, timeRanges r !! window = None) trends →
  process_community timeRange recentSpatialIndex previousSpatialIndex
    community trends cache = Normal (trends', cache') →
  map_Forall (λ _ r, timeRanges r !! window = None) trends'.
Proof.
  intros Hw H6 Hall Hp.
  apply process_community_writes in Hp as (record & -> & Hrec).
  apply map_Forall_insert_2; [|exact Hall].
  destruct Hrec as [-> | [_ [res ->]]].
  - simpl. now rewrite lookup_singleton_ne.
  - rewrite lookup_insert_ne by congruence.
    destruct (trends !! communityId_of community) as [t|] eqn:Ht.
    + exact (Hall _ _ Ht).
    + apply lookup_empty.
Qed.

Lemma no_other_window
    (clock : Clock) (cache : Cache)
    (communities : option CommunityCollection)
    (crimeData : option CrimeCollection) (timeRange window : string)
    (selectedCrimeTypes : option (list string))
    (communityId' : string) (record : Trend) :
  window ≠ timeRange → window ≠ "6months" →
  (calculateSafetyTrends clock cache communities crimeData timeRange
     selectedCrimeTypes).1 !! communityId' = Some record →
  timeRanges record !! window = None.
Proof.
  intros Hw H6 Hl.
  exact (calculateSafetyTrends_invariant _ timeRange
           (λ ri pi c t ca t' ca',
              process_community_windows timeRange window ri pi c t ca t' ca'
                Hw H6)
           clock cache communities crimeData selectedCrimeTypes
           communityId' record Hl).
Qed.

(** C2 at a concrete input.  The unit square with two incidents in 2025,
    one in 2024 and three in 2023: after a call for '1year' the record
    has the sub-record of '1year'; after the following call for
    '2years', made with the cache the first call left, the record has
    the sub-record of '2years' and none for '1year'. *)
Lemma second_window_drops_first :
  let first :=
    calculateSafetyTrends Sample.clock Sample.empty_cache
      (Sample.communities [Sample.square])
      (Sample.crimes Sample.three_years) "1year" None in
  let second :=
    calculateSafetyTrends Sample.clock first.2
      (Sample.communities [Sample.square])
      (Sample.crimes Sample.three_years) "2years" None in
  ∃ record1 record2,
    first.1 !! "square" = Some record1
    ∧ timeRanges record1 !! "1year"
      = Some {| recent := 2; previous := 1;
                range_changePercent := 100%float |}
    ∧ second.1 !! "square" = Some record2
    ∧ timeRanges record2 !! "2years"
      = Some {| recent := 3; previous := 3;
                range_changePercent := 0%float |}
    ∧ timeRanges record2 !! "1year" = None.
Proof.
  cbv zeta. eexists; eexists.
  split; [vm_compute; reflexivity|].
  split; [vm_compute; reflexivity|].
  split; [vm_compute; reflexivity|].
  split; vm_compute; reflexivity.
Qed.

(** C1 at a concrete input.  The unit square with two incidents in 2025,
    one in 2024 and three in 2023: the call for '1year' gives the counts
    2 and 1 and the percentage 100.  After the call for '2years', the
    projection of the latest mapping on '1year' finds no sub-record and
    returns the record of '2years': the counts 3 and 3 and the
    percentage 0. *)
Lemma round_trip_returns_other_window :
  let first :=
    calculateSafetyTrends Sample.clock Sample.empty_cache
      (Sample.communities [Sample.square])
      (Sample.crimes Sample.three_years) "1year" None in
  let second :=
    calculateSafetyTrends Sample.clock first.2
      (Sample.communities [Sample.square])
      (Sample.crimes Sample.three_years) "2years" None in
  ∃ original projected,
    first.1 !! "square" = Some original
    ∧ getSafetyTrendsForTimeRange second.1 "1year" !! "square"
      = Some projected
    ∧ recentCount original = 2%nat
    ∧ previousCount original = 1%nat
    ∧ changePercent original = 100%float
    ∧ recentCount projected = 3%nat
    ∧ previousCount projected = 3%nat
    ∧ changePercent projected = 0%float.
Proof.
  cbv zeta. eexists; eexists.
  split; [vm_compute; reflexivity|].
  split; [vm_compute; reflexivity|].
  repeat split.
Qed.

(** The projection does not round: on the mapping of the call itself
    (seven incidents in 2025, eight in 2024, window '1year') the record
    has the percentage -12 and its projection on '1year' has -12.5. *)
Lemma projection_is_not_rounded :
  let trends :=
    (calculateSafetyTrends Sample.clock Sample.empty_cache
       (Sample.communities [Sample.square])
       (Sample.crimes Sample.seven_eight) "1year" None).1 in
  ∃ original projected,
    trends !! "square" = Some original
    ∧ getSafetyTrendsForTimeRange trends "1year" !! "square" = Some projected
    ∧ changePercent original = (-12)%float
    ∧ changePercent projected = (-12.5)%float.
Proof.
  cbv zeta. eexists; eexists.
  split; [vm_compute; reflexivity|].
  split; [vm_compute; reflexivity|].
  split; reflexivity.
Qed.

(** ** Comparisons of numbers *)

Lemma JS_le_true (x y : Q) : JS.le x y = true ↔ x <= y.
Proof. apply Qle_bool_iff. Qed.

Lemma JS_lt_true (x y : Q) : JS.lt x y = true ↔ x < y.
Proof.
  unfold JS.lt. rewrite negb_true_iff, <- not_true_iff_false, Qle_bool_iff.
  split; [apply Qnot_le_lt | apply Qlt_not_le].
Qed.

Lemma JS_lt_false (x y : Q) : JS.lt x y = false ↔ y <= x.
Proof.
  unfold JS.lt. rewrite negb_false_iff. apply Qle_bool_iff.
Qed.

(** ** Points on an edge *)








(** ** Winding direction *)

(** The loop of [pointInPolygon] answers true when the point is on one
    of the edges, and otherwise by the parity of the crossings. *)
Lemma pointInPolygon_loop_edges (lat lon : Q) (vs : list Vertex) :
  ∀ (vj : Vertex) (inside : bool),
    pointInPolygon_loop lat lon vj vs inside
    = existsb (Spec.on_edge lat lon) (Spec.edges_from vj vs)
      || xorb inside (Spec.crossings lat lon (Spec.edges_from vj vs)).
Proof.
  induction vs as [|vi rest IH]; intros vj inside; simpl.
  - now rewrite xorb_false_r.
  - unfold Spec.on_edge at 1. simpl.
    destruct (isPointOnLineSegment lat lon (fst vi) (snd vi) (fst vj) (snd vj));
      [reflexivity|].
    rewrite IH. simpl. f_equal.
    destruct (intersect lat lon vi vj), inside,
      (Spec.crossings lat lon (Spec.edges_from vi rest)); reflexivity.
Qed.

Lemma existsb_Permutation {A : Type} (f : A → bool) (l l' : list A) :
  Permutation l l' → existsb f l = existsb f l'.
Proof.
  induction 1 as [|x l l' _ IH|x y l|l l' l'' _ IH1 _ IH2]; simpl.
  - reflexivity.
  - now rewrite IH.
  - now destruct (f x), (f y).
  - congruence.
Qed.

Lemma crossings_Permutation (lat lon : Q) (es es' : list (Vertex * Vertex)) :
  Permutation es es' → Spec.crossings lat lon es = Spec.crossings lat lon es'.
Proof.
  induction 1 as [|x l l' _ IH|x y l|l l' l'' _ IH1 _ IH2]; simpl.
  - reflexivity.
  - now rewrite IH.
  - now destruct (intersect lat lon x.1 x.2), (intersect lat lon y.1 y.2),
      (Spec.crossings lat lon l).
  - congruence.
Qed.

Lemma last_default_irrelevant (v : Vertex) (vs : list Vertex) (d d' : Vertex) :
  List.last (v :: vs) d = List.last (v :: vs) d'.
Proof.
  revert v. induction vs as [|w vs IH]; intros v; [reflexivity|].
  change (List.last (w :: vs) d = List.last (w :: vs) d'). apply IH.
Qed.

Lemma edges_from_snoc (vs : list Vertex) :
  ∀ (vj x : Vertex),
    Spec.edges_from vj (vs ++ [x])
    = Spec.edges_from vj vs ++ [(x, List.last vs vj)].
Proof.
  induction vs as [|v rest IH]; intros vj x; [reflexivity|].
  simpl Spec.edges_from. rewrite IH. simpl app.
  destruct rest as [|w rest']; [reflexivity|].
  change (List.last (v :: w :: rest') vj) with (List.last (w :: rest') vj).
  now rewrite (last_default_irrelevant w rest' v vj).
Qed.

(** The loop of [pointInPolygon] answers true when the on-edge test
    accepts the point for one of the edges, and otherwise by the parity
    of the crossings. *)
Lemma binary64_loop_edges (lat lon : float) (vs : list Binary64.Vertex) :
  ∀ (vj : Binary64.Vertex) (inside : bool),
    Binary64.pointInPolygon_loop lat lon vj vs inside
    = existsb (Binary64.on_edge lat lon) (Binary64.edges_from vj vs)
      || xorb inside (Binary64.crossings lat lon (Binary64.edges_from vj vs)).
Proof.
  induction vs as [|vi rest IH]; intros vj inside; simpl.
  - now rewrite xorb_false_r.
  - unfold Binary64.on_edge at 1. simpl.
    destruct (Binary64.isPointOnLineSegment lat lon (fst vi) (snd vi) (fst vj)
                (snd vj)); [reflexivity|].
    rewrite IH. simpl. f_equal.
    destruct (Binary64.intersect lat lon vi vj), inside,
      (Binary64.crossings lat lon (Binary64.edges_from vi rest)); reflexivity.
Qed.

Lemma binary64_crossings_Permutation (lat lon : float)
    (es es' : list (Binary64.Vertex * Binary64.Vertex)) :
  Permutation es es' →
  Binary64.crossings lat lon es = Binary64.crossings lat lon es'.
Proof.
  induction 1 as [|x l l' _ IH|x y l|l l' l'' _ IH1 _ IH2]; simpl.
  - reflexivity.
  - now rewrite IH.
  - now destruct (Binary64.intersect lat lon (fst x) (snd x)),
      (Binary64.intersect lat lon (fst y) (snd y)),
      (Binary64.crossings lat lon l).
  - congruence.
Qed.

Lemma last_cons_default {A : Type} (v : A) (vs : list A) (d d' : A) :
  List.last (v :: vs) d = List.last (v :: vs) d'.
Proof.
  revert v. induction vs as [|w vs IH]; intros v; [reflexivity|].
  change (List.last (w :: vs) d = List.last (w :: vs) d'). apply IH.
Qed.

Lemma binary64_edges_from_snoc (vs : list Binary64.Vertex) :
  ∀ (vj x : Binary64.Vertex),
    Binary64.edges_from vj (vs ++ [x])
    = Binary64.edges_from vj vs ++ [(x, List.last vs vj)].
Proof.
  induction vs as [|v rest IH]; intros vj x; [reflexivity|].
  simpl Binary64.edges_from. rewrite IH. simpl app.
  destruct rest as [|w rest']; [reflexivity|].
  change (List.last (v :: w :: rest') vj) with (List.last (w :: rest') vj).
  now rewrite (last_cons_default w rest' v vj).
Qed.

(** The edges of the path from [a] through [l] to [b] are, end points
    exchanged and in another order, the edges of the path from [b]
    through [rev l] to [a]. *)
Lemma binary64_edges_from_rev (l : list Binary64.Vertex) :
  ∀ (a b : Binary64.Vertex),
    Permutation (Binary64.edges_from b (rev l ++ [a]))
      (map prod_swap (Binary64.edges_from a (l ++ [b]))).
Proof.
  induction l as [|x l IH]; intros a b; [reflexivity|].
  simpl rev. rewrite binary64_edges_from_snoc, last_last.
  simpl. rewrite <- IH. symmetry. apply Permutation_cons_append.
Qed.

(** The reversed ring has the edges of the ring, each with its end
    points exchanged. *)
Lemma binary64_edges_rev (polygon : list Binary64.Vertex) :
  Permutation (Binary64.edges (rev polygon))
    (map prod_swap (Binary64.edges polygon)).
Proof.
  unfold Binary64.edges.
  destruct polygon as [|a rest]; [reflexivity|].
  destruct (exists_last (l := a :: rest)) as (l & b & Hl); [discriminate|].
  rewrite Hl, rev_app_distr, last_last. simpl rev. simpl app.
  destruct l as [|a' l].
  - reflexivity.
  - simpl app. rewrite (last_cons_default b _ (0%float, 0%float) b).
    simpl rev.
    assert (List.last (b :: rev l ++ [a']) b = a') as ->.
    { change (b :: rev l ++ [a']) with ((b :: rev l) ++ [a']).
      apply last_last. }
    simpl. apply perm_skip. apply binary64_edges_from_rev.
Qed.

Lemma binary64_swap_edges (lat lon : float)
    (es : list (Binary64.Vertex * Binary64.Vertex)) :
  (∀ a b, In (a, b) es →
          Binary64.isPointOnLineSegment lat lon (fst a) (snd a) (fst b) (snd b)
          = Binary64.isPointOnLineSegment lat lon (fst b) (snd b) (fst a)
              (snd a)
          ∧ Binary64.intersect lat lon a b = Binary64.intersect lat lon b a) →
  existsb (Binary64.on_edge lat lon) (map prod_swap es)
  = existsb (Binary64.on_edge lat lon) es
  ∧ Binary64.crossings lat lon (map prod_swap es)
    = Binary64.crossings lat lon es.
Proof.
  induction es as [|[a b] es IH]; intros Hsym; [now split|].
  destruct (IH (λ a' b' Hin, Hsym a' b' (or_intror Hin))) as [IH1 IH2].
  destruct (Hsym a b (or_introl eq_refl)) as [Hon Hcross].
  simpl. unfold Binary64.on_edge at 1 3. cbn [fst snd].
  now rewrite IH1, IH2, Hon, Hcross.
Qed.

(** C8, as amended.  In double precision, containment is the same for a
    ring and for the ring with its vertices in the reverse order when,
    on every edge of the ring, the on-edge test and the ray-casting test
    give the same answer with the end points of the edge exchanged: the
    order in which the edges are visited does not matter. *)
Theorem winding_direction_symmetry
    (lat lon : float) (vertices : list Binary64.Vertex) :
  (∀ a b, In (a, b) (Binary64.edges vertices) →
          Binary64.isPointOnLineSegment lat lon (fst a) (snd a) (fst b) (snd b)
          = Binary64.isPointOnLineSegment lat lon (fst b) (snd b) (fst a)
              (snd a)
          ∧ Binary64.intersect lat lon a b = Binary64.intersect lat lon b a) →
  Binary64.pointInPolygon lat lon vertices
  = Binary64.pointInPolygon lat lon (rev vertices).
Proof.
  intros Hsym. unfold Binary64.pointInPolygon. rewrite length_rev.
  destruct (length vertices <? 3)%nat; [reflexivity|].
  rewrite !binary64_loop_edges.
  change (Binary64.edges_from (List.last ?p (0%float, 0%float)) ?p)
    with (Binary64.edges p).
  rewrite (existsb_Permutation _ _ _ (binary64_edges_rev vertices)).
  rewrite (binary64_crossings_Permutation _ _ _ _
             (binary64_edges_rev vertices)).
  destruct (binary64_swap_edges lat lon (Binary64.edges vertices) Hsym)
    as [-> ->].
  reflexivity.
Qed.

Lemma winding_direction_symmetry_witness :
  Binary64.pointInPolygon 39.97 (-75.14) Sample.philadelphia_triangle
  = Binary64.pointInPolygon 39.97 (-75.14) (rev Sample.philadelphia_triangle).
Proof.
  apply (winding_direction_symmetry 39.97%float (-75.14)%float
           Sample.philadelphia_triangle).
  intros a b Hin. cbn in Hin.
  destruct Hin as [[= <- <-] | [[= <- <-] | [[= <- <-] | []]]];
    split; vm_compute; reflexivity.
Defined.

(** C8, as stated, fails in double precision: for the point
    [39.9833, -75.0998], 0.0001 degrees off an edge of
    [philadelphia_triangle], the cross product of the on-edge test is
    below 0.00001 computed from one end of the edge and not below it
    computed from the other; the ring contains the point, the reversed
    ring does not. *)
Lemma winding_direction_matters_in_double_precision :
  ¬ (∀ (lat lon : float) (vertices : list Binary64.Vertex),
       Binary64.pointInPolygon lat lon vertices
       = Binary64.pointInPolygon lat lon (rev vertices)).
Proof.
  intros H.
  specialize (H 39.9833%float (-75.0998)%float Sample.philadelphia_triangle).
  vm_compute in H. discriminate.
Qed.

(** ** Grid prefilter *)

Lemma index_crime_keeps (gridSize : Q) (index : SpatialIndex)
    (key : Z * Z) (cell : list Crime) (crime other : Crime) :
  index !! key = Some cell → In crime cell →
  ∃ cell', index_crime gridSize index other !! key = Some cell'
           ∧ In crime cell'.
Proof.
  intros Hl Hin. unfold index_crime.
  destruct (lon_lat (crime_coordinates other)) as [[lon lat]|]; [|eauto].
  destruct (decide (grid_key gridSize lon lat = key)) as [-> | Hne].
  - rewrite lookup_insert_eq, Hl. simpl. eexists. split; [reflexivity|].
    apply in_or_app. now left.
  - rewrite lookup_insert_ne by assumption. eauto.
Qed.

Lemma index_crime_adds (gridSize : Q) (index : SpatialIndex)
    (crime : Crime) (lon lat : Q) :
  lon_lat (crime_coordinates crime) = Some (lon, lat) →
  ∃ cell, index_crime gridSize index crime !! grid_key gridSize lon lat
          = Some cell
          ∧ In crime cell.
Proof.
  intros Hc. unfold index_crime. rewrite Hc, lookup_insert_eq.
  eexists. split; [reflexivity|]. apply in_or_app. right. now left.
Qed.

Lemma index_fold_keeps (gridSize : Q) (fs : list Crime) :
  ∀ (index : SpatialIndex) (key : Z * Z) (cell : list Crime) (crime : Crime),
    index !! key = Some cell → In crime cell →
    ∃ cell', fold_left (index_crime gridSize) fs index !! key = Some cell'
             ∧ In crime cell'.
Proof.
  induction fs as [|other fs IH]; intros index key cell crime Hl Hin; [eauto|].
  simpl.
  destruct (index_crime_keeps gridSize index key cell crime other Hl Hin)
    as (cell' & Hl' & Hin').
  eapply IH; eassumption.
Qed.

(** A crime of the dataset with two coordinates is in the cell of its
    grid key. *)
Lemma createSpatialIndex_complete (gridSize : Q) (fs : list Crime)
    (crime : Crime) (lon lat : Q) :
  In crime fs →
  lon_lat (crime_coordinates crime) = Some (lon, lat) →
  ∃ cell,
    createSpatialIndex (Some {| crime_features := Some fs |}) gridSize
    !! grid_key gridSize lon lat = Some cell
    ∧ In crime cell.
Proof.
  unfold createSpatialIndex. generalize (∅ : SpatialIndex).
  induction fs as [|other fs IH]; intros index Hin Hc; [destruct Hin|].
  simpl. destruct Hin as [-> | Hin].
  - destruct (index_crime_adds gridSize index crime lon lat Hc)
      as (cell & Hl & Hcell).
    eapply index_fold_keeps; eassumption.
  - now apply IH.
Qed.

Lemma floor_div_monotone (gridSize x y : Q) :
  0 < gridSize → x <= y →
  (JS.Math_floor (x / gridSize) <= JS.Math_floor (y / gridSize))%Z.
Proof.
  intros Hg Hxy. unfold JS.Math_floor. apply Qfloor_resp_le.
  unfold Qdiv. apply Qmult_le_compat_r; [assumption|].
  apply Qlt_le_weak, Qinv_lt_0_compat, Hg.
Qed.

Lemma isPointInBounds_true (lat lon : Q) (bounds : Bounds) :
  isPointInBounds lat lon bounds = true →
  minLat bounds <= lat ∧ lat <= maxLat bounds
  ∧ minLon bounds <= lon ∧ lon <= maxLon bounds.
Proof.
  unfold isPointInBounds, JS.ge. rewrite !andb_true_iff, !JS_le_true. tauto.
Qed.

(** The scan of the grid cells finds every indexed crime that lies
    within the bounds. *)
Lemma scan_cells_complete (spatialIndex : SpatialIndex) (bounds : Bounds)
    (gridSize : Q) (crime : Crime) (lon lat : Q) (cell : list Crime) :
  0 < gridSize →
  spatialIndex !! grid_key gridSize lon lat = Some cell →
  In crime cell →
  lon_lat (crime_coordinates crime) = Some (lon, lat) →
  isPointInBounds lat lon bounds = true →
  In crime (scan_cells spatialIndex bounds gridSize).
Proof.
  intros Hg Hcell Hin Hc Hb.
  destruct (isPointInBounds_true lat lon bounds Hb) as (H1 & H2 & H3 & H4).
  unfold scan_cells. apply in_flat_map.
  exists (JS.Math_floor (lon / gridSize)). split.
  - apply list_elem_of_In, elem_of_seqZ.
    pose proof (floor_div_monotone gridSize _ _ Hg H3).
    pose proof (floor_div_monotone gridSize _ _ Hg H4). lia.
  - apply in_flat_map. exists (JS.Math_floor (lat / gridSize)). split.
    + apply list_elem_of_In, elem_of_seqZ.
      pose proof (floor_div_monotone gridSize _ _ Hg H1).
      pose proof (floor_div_monotone gridSize _ _ Hg H2). lia.
    + unfold cell_crimes. fold (grid_key gridSize lon lat). rewrite Hcell.
      apply filter_In. split; [assumption|]. now rewrite Hc.
Qed.

(** The bounding box of a boundary covers each of its vertices. *)
Lemma bounds_fold_covers (coords : list Vertex) :
  ∀ (b0 : Bounds),
    let b := fold_left
               (fun b v =>
                  {| minLat := JS.Math_min (minLat b) (fst v);
                     maxLat := JS.Math_max (maxLat b) (fst v);
                     minLon := JS.Math_min (minLon b) (snd v);
                     maxLon := JS.Math_max (maxLon b) (snd v) |})
               coords b0 in
    (∀ v, Spec.covers b0 v → Spec.covers b v)
    ∧ (∀ v, In v coords → Spec.covers b v).
Proof.
  induction coords as [|w coords IH]; intros b0; cbv zeta.
  - split; [tauto | intros v []].
  - simpl fold_left.
    match goal with
    | |- context [fold_left _ coords ?b1] =>
        destruct (IH b1) as [Hkeep Hin]; cbv zeta in Hkeep, Hin
    end.
    assert (∀ v, Spec.covers b0 v ∨ v = w →
                 Spec.covers
                   {| minLat := JS.Math_min (minLat b0) (fst w);
                      maxLat := JS.Math_max (maxLat b0) (fst w);
                      minLon := JS.Math_min (minLon b0) (snd w);
                      maxLon := JS.Math_max (maxLon b0) (snd w) |} v)
      as Hstep.
    { intros v Hv. unfold Spec.covers, JS.Math_min, JS.Math_max. simpl.
      pose proof (Q.le_min_l (minLat b0) (fst w)) as Ha1.
      pose proof (Q.le_min_r (minLat b0) (fst w)) as Ha2.
      pose proof (Q.le_max_l (maxLat b0) (fst w)) as Ha3.
      pose proof (Q.le_max_r (maxLat b0) (fst w)) as Ha4.
      pose proof (Q.le_min_l (minLon b0) (snd w)) as Ho1.
      pose proof (Q.le_min_r (minLon b0) (snd w)) as Ho2.
      pose proof (Q.le_max_l (maxLon b0) (snd w)) as Ho3.
      pose proof (Q.le_max_r (maxLon b0) (snd w)) as Ho4.
      destruct Hv as [(Hv1 & Hv2 & Hv3 & Hv4) | ->]; repeat split; lra. }
    split.
    + intros v Hv. apply Hkeep, Hstep. now left.
    + intros v [<- | Hv]; [|now apply Hin].
      apply Hkeep, Hstep. now right.
Qed.

Lemma calculateCommunityBounds_covers (community : Community)
    (bounds : Bounds) (v : Vertex) :
  calculateCommunityBounds community = Some bounds →
  In v (getPolygonCoordinates (geometry community)) →
  Spec.covers bounds v.
Proof.
  unfold calculateCommunityBounds.
  destruct (length (getPolygonCoordinates (geometry community)) <? 3)%nat;
    [discriminate|].
  destruct (getPolygonCoordinates (geometry community)) as [|[lat0 lon0] rest]
    eqn:Hc; [discriminate|].
  intros [= <-] Hin.
  exact (proj2 (bounds_fold_covers ((lat0, lon0) :: rest)
                  {| minLat := lat0; maxLat := lat0;
                     minLon := lon0; maxLon := lon0 |}) v Hin).
Qed.

(** Every crime that the scan of the grid returns lies within the
    bounds. *)
Lemma scan_cells_within (spatialIndex : SpatialIndex) (bounds : Bounds)
    (gridSize : Q) (crime : Crime) (lon lat : Q) :
  In crime (scan_cells spatialIndex bounds gridSize) →
  lon_lat (crime_coordinates crime) = Some (lon, lat) →
  isPointInBounds lat lon bounds = true.
Proof.
  unfold scan_cells. intros Hin Hc.
  apply in_flat_map in Hin as (x & _ & Hin).
  apply in_flat_map in Hin as (y & _ & Hin).
  unfold cell_crimes in Hin.
  destruct (spatialIndex !! (x, y)) as [cell|]; [|destruct Hin].
  apply filter_In in Hin as [_ Hin]. now rewrite Hc in Hin.
Qed.

(** C6, as amended.  For a grid size above 0, a boundary with at least
    three vertices whose cache key can be read (it has an [id] or
    [properties]), and a cache that holds under that key nothing or the
    bounding box of the boundary, the query returns a list, and a crime
    of the indexed dataset with two coordinates that is contained in the
    polygon is in that list exactly when it lies within the bounding
    box. *)
Theorem grid_prefilter_complete
    (gridSize : Q) (fs : list Crime) (community : Community) (cache : Cache)
    (key : option string) (bounds : Bounds) (crime : Crime) (lon lat : Q) :
  0 < gridSize →
  In crime fs →
  lon_lat (crime_coordinates crime) = Some (lon, lat) →
  calculateCommunityBounds community = Some bounds →
  bounds_key community = Normal key →
  communityBounds cache !! key = None
  ∨ communityBounds cache !! key = Some bounds →
  pointInPolygon lat lon (getPolygonCoordinates (geometry community)) = true →
  ∃ candidates cache',
    getCrimesInCommunityBounds community
      (createSpatialIndex (Some {| crime_features := Some fs |}) gridSize)
      gridSize cache
    = Normal (candidates, cache')
    ∧ (In crime candidates ↔ isPointInBounds lat lon bounds = true).
Proof.
  intros Hg Hin Hc Hbounds Hkey Hcache _.
  exists (scan_cells
            (createSpatialIndex (Some {| crime_features := Some fs |}) gridSize)
            bounds gridSize).
  assert (∃ cache',
            getCrimesInCommunityBounds community
              (createSpatialIndex (Some {| crime_features := Some fs |})
                 gridSize) gridSize cache
            = Normal (scan_cells
                        (createSpatialIndex
                           (Some {| crime_features := Some fs |}) gridSize)
                        bounds gridSize, cache')) as [cache' Hrun].
  { unfold getCrimesInCommunityBounds. rewrite Hkey.
    destruct Hcache as [-> | ->]; [rewrite Hbounds|]; eauto. }
  exists cache'. split; [exact Hrun|]. split.
  - intros Hcand.
    exact (scan_cells_within _ bounds gridSize crime lon lat Hcand Hc).
  - intros Hb.
    destruct (createSpatialIndex_complete gridSize fs crime lon lat Hin Hc)
      as (cell & Hcell & Hincell).
    exact (scan_cells_complete _ bounds gridSize crime lon lat cell
             Hg Hcell Hincell Hc Hb).
Qed.

Lemma grid_prefilter_complete_witness :
  ∃ candidates cache',
    getCrimesInCommunityBounds Sample.square
      (createSpatialIndex
         (Some {| crime_features := Some [Sample.centre 2025] |}) (1 # 100))
      (1 # 100) Sample.empty_cache
    = Normal (candidates, cache')
    ∧ (In (Sample.centre 2025) candidates
       ↔ isPointInBounds (1 # 2) (1 # 2)
           {| minLat := 0; maxLat := 1; minLon := 0; maxLon := 1 |} = true).
Proof.
  apply (grid_prefilter_complete (1 # 100) [Sample.centre 2025] Sample.square
           Sample.empty_cache (Some "square")
           {| minLat := 0; maxLat := 1; minLon := 0; maxLon := 1 |}
           (Sample.centre 2025) (1 # 2) (1 # 2)).
  - reflexivity.
  - now left.
  - reflexivity.
  - reflexivity.
  - reflexivity.
  - left. reflexivity.
  - vm_compute. reflexivity.
Defined.

(** C6, as stated, fails: a point 0.000005 degrees north of the top edge
    of the unit square is contained (the on-edge test has a tolerance of
    0.00001) and lies outside the bounding box, so it is no candidate. *)
Lemma grid_prefilter_misses_point_near_edge :
  ¬ (∀ (gridSize : Q) (fs : list Crime) (community : Community)
       (cache : Cache) (crime : Crime) (lon lat : Q),
       0 < gridSize →
       In crime fs →
       lon_lat (crime_coordinates crime) = Some (lon, lat) →
       (3 <= length (getPolygonCoordinates (geometry community)))%nat →
       pointInPolygon lat lon (getPolygonCoordinates (geometry community))
       = true →
       ∃ candidates cache',
         getCrimesInCommunityBounds community
           (createSpatialIndex (Some {| crime_features := Some fs |}) gridSize)
           gridSize cache
         = Normal (candidates, cache')
         ∧ In crime candidates).
Proof.
  intros H.
  destruct (H (1 # 100) [Sample.north_of_edge] Sample.square
              Sample.empty_cache Sample.north_of_edge
              (1 # 2) (1000005 # 1000000))
    as (candidates & cache' & Hrun & Hin).
  - reflexivity.
  - now left.
  - reflexivity.
  - simpl. lia.
  - vm_compute. reflexivity.
  - vm_compute in Hrun. injection Hrun as <- _. destruct Hin.
Qed.

(** * Further properties *)

(** ** The grid query against the plain filter *)

Lemma flat_map_update {K A : Type} `{EqDecision K} (f f' : K → list A)
    (k0 : K) (extra : list A) (ks : list K) :
  NoDup ks →
  (∀ k, k ≠ k0 → f' k = f k) →
  Permutation (f' k0) (f k0 ++ extra) →
  Permutation (flat_map f' ks)
    (flat_map f ks ++ if decide (k0 ∈ ks) then extra else []).
Proof.
  intros Hnd Hother Hk0. induction Hnd as [|k ks Hnotin Hnd IH]; simpl.
  - reflexivity.
  - destruct (decide (k = k0)) as [-> | Hne].
    + rewrite decide_True by (apply elem_of_cons; now left).
      rewrite decide_False in IH by assumption. rewrite app_nil_r in IH.
      rewrite IH, Hk0, <- !app_assoc.
      apply Permutation_app_head, Permutation_app_comm.
    + rewrite (Hother k Hne), IH, <- app_assoc.
      apply Permutation_app_head.
      destruct (decide (k0 ∈ ks)) as [Hin | Hnin].
      * rewrite decide_True by (apply elem_of_cons; now right). reflexivity.
      * rewrite decide_False; [reflexivity|].
        intros Hin. apply elem_of_cons in Hin as [-> | Hin]; contradiction.
Qed.

Lemma cell_crimes_index_crime (gridSize : Q) (index : SpatialIndex)
    (bounds : Bounds) (crime : Crime) (lon lat : Q) :
  lon_lat (crime_coordinates crime) = Some (lon, lat) →
  cell_crimes (index_crime gridSize index crime) bounds
    (grid_key gridSize lon lat)
  = cell_crimes index bounds (grid_key gridSize lon lat)
    ++ (if Direct.in_bounds bounds crime then [crime] else [])
  ∧ ∀ key, key ≠ grid_key gridSize lon lat →
           cell_crimes (index_crime gridSize index crime) bounds key
           = cell_crimes index bounds key.
Proof.
  intros Hc. unfold cell_crimes, index_crime, Direct.in_bounds. rewrite Hc.
  split.
  - rewrite lookup_insert_eq, List.filter_app. cbn [List.filter]. rewrite Hc.
    now destruct (index !! grid_key gridSize lon lat) as [cell|].
  - intros key Hne. now rewrite lookup_insert_ne by congruence.
Qed.

Lemma in_bounds_key_in_range (gridSize : Q) (bounds : Bounds)
    (lon lat : Q) :
  0 < gridSize →
  isPointInBounds lat lon bounds = true →
  JS.Math_floor (lon / gridSize)
  ∈ seqZ (JS.Math_floor (minLon bounds / gridSize))
      (JS.Math_floor (maxLon bounds / gridSize)
       - JS.Math_floor (minLon bounds / gridSize) + 1)
  ∧ JS.Math_floor (lat / gridSize)
    ∈ seqZ (JS.Math_floor (minLat bounds / gridSize))
        (JS.Math_floor (maxLat bounds / gridSize)
         - JS.Math_floor (minLat bounds / gridSize) + 1).
Proof.
  intros Hg Hb.
  destruct (isPointInBounds_true lat lon bounds Hb) as (H1 & H2 & H3 & H4).
  pose proof (floor_div_monotone gridSize _ _ Hg H1).
  pose proof (floor_div_monotone gridSize _ _ Hg H2).
  pose proof (floor_div_monotone gridSize _ _ Hg H3).
  pose proof (floor_div_monotone gridSize _ _ Hg H4).
  split; apply elem_of_seqZ; lia.
Qed.

(** Indexing one more crime adds it to the result of the scan when it
    lies within the bounds, and changes nothing else. *)
Lemma scan_cells_index_crime (gridSize : Q) (index : SpatialIndex)
    (bounds : Bounds) (crime : Crime) :
  0 < gridSize →
  Permutation (scan_cells (index_crime gridSize index crime) bounds gridSize)
    (scan_cells index bounds gridSize
     ++ if Direct.in_bounds bounds crime then [crime] else []).
Proof.
  intros Hg.
  destruct (lon_lat (crime_coordinates crime)) as [[lon lat]|] eqn:Hc.
  2:{ unfold index_crime, Direct.in_bounds. rewrite Hc, app_nil_r.
      reflexivity. }
  destruct (cell_crimes_index_crime gridSize index bounds crime lon lat Hc)
    as [Hhere Hother].
  unfold grid_key in Hhere, Hother.
  set (kx := JS.Math_floor (lon / gridSize)) in *.
  set (ky := JS.Math_floor (lat / gridSize)) in *.
  unfold scan_cells.
  set (ys := seqZ (JS.Math_floor (minLat bounds / gridSize))
               (JS.Math_floor (maxLat bounds / gridSize)
                - JS.Math_floor (minLat bounds / gridSize) + 1)).
  set (xs := seqZ (JS.Math_floor (minLon bounds / gridSize))
               (JS.Math_floor (maxLon bounds / gridSize)
                - JS.Math_floor (minLon bounds / gridSize) + 1)).
  set (extra := if Direct.in_bounds bounds crime then [crime] else []) in *.
  assert (Direct.in_bounds bounds crime = true → kx ∈ xs ∧ ky ∈ ys) as Hrange.
  { unfold Direct.in_bounds. rewrite Hc. intros Hb.
    destruct (in_bounds_key_in_range gridSize bounds lon lat Hg Hb). now split. }
  rewrite (flat_map_update
             (λ x, flat_map (λ y, cell_crimes index bounds (x, y)) ys)
             (λ x, flat_map
                     (λ y, cell_crimes (index_crime gridSize index crime)
                             bounds (x, y)) ys)
             kx (if decide (ky ∈ ys) then extra else []) xs).
  - apply Permutation_app_head. unfold extra in *.
    destruct (Direct.in_bounds bounds crime).
    + destruct (Hrange eq_refl) as [Hx Hy].
      now rewrite !decide_True by assumption.
    + now destruct (decide (kx ∈ xs)), (decide (ky ∈ ys)).
  - apply NoDup_seqZ.
  - intros x Hx. apply flat_map_ext. intros y. apply Hother. congruence.
  - apply (flat_map_update (λ y, cell_crimes index bounds (kx, y))
             (λ y, cell_crimes (index_crime gridSize index crime) bounds
                     (kx, y)) ky extra ys).
    + apply NoDup_seqZ.
    + intros y Hy. apply Hother. congruence.
    + now rewrite Hhere.
Qed.

Lemma scan_cells_fold (gridSize : Q) (bounds : Bounds) (fs : list Crime) :
  0 < gridSize →
  ∀ index : SpatialIndex,
    Permutation
      (scan_cells (fold_left (index_crime gridSize) fs index) bounds gridSize)
      (scan_cells index bounds gridSize
       ++ List.filter (Direct.in_bounds bounds) fs).
Proof.
  intros Hg. induction fs as [|crime fs IH]; intros index; simpl.
  - now rewrite app_nil_r.
  - rewrite IH, (scan_cells_index_crime gridSize index bounds crime Hg),
      <- app_assoc.
    apply Permutation_app_head.
    now destruct (Direct.in_bounds bounds crime).
Qed.

Lemma flat_map_all_nil {A B : Type} (f : A → list B) (l : list A) :
  (∀ x, f x = []) → flat_map f l = [].
Proof.
  intros Hf. induction l as [|x l IH]; [reflexivity|].
  simpl. now rewrite Hf, IH.
Qed.

Lemma scan_cells_empty (bounds : Bounds) (gridSize : Q) :
  scan_cells ∅ bounds gridSize = [].
Proof.
  unfold scan_cells. apply flat_map_all_nil. intros x.
  apply flat_map_all_nil. intros y. unfold cell_crimes.
  now rewrite lookup_empty.
Qed.

Lemma scan_cells_createSpatialIndex (gridSize : Q) (bounds : Bounds)
    (fs : list Crime) :
  0 < gridSize →
  Permutation
    (scan_cells (createSpatialIndex (Some {| crime_features := Some fs |})
                   gridSize) bounds gridSize)
    (List.filter (Direct.in_bounds bounds) fs).
Proof.
  intros Hg. unfold createSpatialIndex.
  now rewrite (scan_cells_fold gridSize bounds fs Hg ∅), scan_cells_empty.
Qed.

Lemma grid_query_is_plain_filter_aux (fs : list Crime)
    (community : Community) (cache : Cache) (key : option string)
    (bounds : Bounds) :
  calculateCommunityBounds community = Some bounds →
  bounds_key community = Normal key →
  communityBounds cache !! key = None
  ∨ communityBounds cache !! key = Some bounds →
  ∃ candidates cache',
    getCrimesInCommunityBounds community
      (createSpatialIndex (Some {| crime_features := Some fs |}) (1 # 100))
      (1 # 100) cache
    = Normal (candidates, cache')
    ∧ Permutation candidates (List.filter (Direct.in_bounds bounds) fs)
    ∧ communityBounds cache' !! key = Some bounds.
Proof.
  intros Hbounds Hkey Hcache.
  pose proof (scan_cells_createSpatialIndex (1 # 100) bounds fs eq_refl)
    as Hscan.
  unfold getCrimesInCommunityBounds. rewrite Hkey.
  destruct Hcache as [Hc | Hc]; rewrite Hc.
  - rewrite Hbounds. eexists. eexists. split; [reflexivity|].
    split; [assumption|]. simpl. apply lookup_insert_eq.
  - eauto.
Qed.

(** X1.  For a grid size above 0, the query of a boundary whose cached
    bounds, if any, are its own bounding box returns, in some order and
    each as often as the dataset holds it, exactly the crimes of the
    indexed dataset that have two coordinates and lie within the
    bounding box: the grid changes the order only. *)
Theorem grid_query_is_plain_filter
    (gridSize : Q) (fs : list Crime) (community : Community) (cache : Cache)
    (key : option string) (bounds : Bounds) :
  0 < gridSize →
  calculateCommunityBounds community = Some bounds →
  bounds_key community = Normal key →
  communityBounds cache !! key = None
  ∨ communityBounds cache !! key = Some bounds →
  ∃ candidates cache',
    getCrimesInCommunityBounds community
      (createSpatialIndex (Some {| crime_features := Some fs |}) gridSize)
      gridSize cache
    = Normal (candidates, cache')
    ∧ Permutation candidates (List.filter (Direct.in_bounds bounds) fs).
Proof.
  intros Hg Hbounds Hkey Hcache.
  pose proof (scan_cells_createSpatialIndex gridSize bounds fs Hg) as Hscan.
  unfold getCrimesInCommunityBounds. rewrite Hkey.
  destruct Hcache as [-> | ->].
  - rewrite Hbounds. eauto.
  - eauto.
Qed.

Lemma grid_query_is_plain_filter_witness :
  ∃ candidates cache',
    getCrimesInCommunityBounds Sample.square
      (createSpatialIndex
         (Some {| crime_features :=
                    Some [Sample.centre 2025; Sample.north_of_edge] |})
         (1 # 100))
      (1 # 100) Sample.empty_cache
    = Normal (candidates, cache')
    ∧ Permutation candidates
        (List.filter
           (Direct.in_bounds
              {| minLat := 0; maxLat := 1; minLon := 0; maxLon := 1 |})
           [Sample.centre 2025; Sample.north_of_edge]).
Proof.
  apply (grid_query_is_plain_filter (1 # 100)
           [Sample.centre 2025; Sample.north_of_edge] Sample.square
           Sample.empty_cache (Some "square")
           {| minLat := 0; maxLat := 1; minLon := 0; maxLon := 1 |}).
  - reflexivity.
  - reflexivity.
  - reflexivity.
  - left. reflexivity.
Defined.

(** ** The counts of a record *)

Lemma filter_Permutation_list {A : Type} (f : A → bool) (l l' : list A) :
  Permutation l l' → Permutation (List.filter f l) (List.filter f l').
Proof.
  induction 1 as [|x l l' _ IH|x y l|l l' l'' _ IH1 _ IH2]; simpl.
  - reflexivity.
  - destruct (f x); [now apply perm_skip | assumption].
  - destruct (f x), (f y); try reflexivity. apply perm_swap.
  - now rewrite IH1.
Qed.

Lemma filter_filter_andb {A : Type} (f g : A → bool) (l : list A) :
  List.filter g (List.filter f l) = List.filter (λ x, f x && g x) l.
Proof.
  induction l as [|x l IH]; [reflexivity|].
  simpl. destruct (f x); simpl; [destruct (g x)|]; now rewrite IH.
Qed.

(** The breakdown by label: a label is a key exactly when some crime
    carries it, and its value is the number of those crimes. *)
Lemma count_type_fold (label : string) (crimes : list Crime) :
  ∀ (crimeTypes : gmap string TypeCount) (before : nat),
    crimeTypes !! label = Direct.counted_as label before →
    fold_left count_type crimes crimeTypes !! label
    = Direct.counted_as label
        (before + length (List.filter (Direct.labelled label) crimes)).
Proof.
  induction crimes as [|crime crimes IH]; intros crimeTypes before Hown.
  { cbn. now rewrite Nat.add_0_r. }
  cbn [fold_left List.filter].
  assert (∀ own, Direct.labelled label crime = false →
                 count_type own crime !! label = own !! label) as Hother.
  { intros own. unfold count_type, Direct.labelled.
    destruct (crime_properties crime) as [p|]; [|reflexivity].
    destruct (JS.truthy (text_general_code p)); [|reflexivity].
    cbn [andb]. intros Hne. apply String.eqb_neq in Hne.
    destruct (String.eqb _ "__proto__"); [reflexivity|].
    now rewrite lookup_insert_ne. }
  destruct (Direct.labelled label crime) eqn:Hl.
  - cbn [length]. rewrite Nat.add_succ_r, <- Nat.add_succ_l.
    apply IH. clear IH Hother.
    unfold Direct.labelled in Hl. unfold count_type.
    destruct (crime_properties crime) as [p|]; [|discriminate].
    destruct (JS.truthy (text_general_code p)); [|discriminate].
    cbn [andb] in Hl. apply String.eqb_eq in Hl. rewrite Hl. cbv zeta.
    unfold Direct.counted_as in *.
    destruct (String.eqb label "__proto__").
    + now destruct before.
    + rewrite lookup_insert_eq, Hown. unfold plus_one.
      destruct before as [|k]; [now destruct (inherits_function label)|].
      destruct (inherits_function label); now rewrite Nat.add_1_r.
  - apply IH. now rewrite Hother.
Qed.

(** The effect of a query on the cache: nothing, or one new entry, the
    bounding box of the boundary under its key. *)
Lemma getCrimesInCommunityBounds_cache (community : Community)
    (spatialIndex : SpatialIndex) (gridSize : Q) (cache cache' : Cache)
    (candidates : list Crime) :
  getCrimesInCommunityBounds community spatialIndex gridSize cache
  = Normal (candidates, cache') →
  results cache' = results cache
  ∧ (cache' = cache
     ∨ ∃ key bounds,
         bounds_key community = Normal key
         ∧ communityBounds cache !! key = None
         ∧ calculateCommunityBounds community = Some bounds
         ∧ communityBounds cache'
           = <[key := bounds]> (communityBounds cache)).
Proof.
  unfold getCrimesInCommunityBounds.
  destruct (bounds_key community) as [key|] eqn:Hk; [|discriminate].
  destruct (communityBounds cache !! key) as [b|] eqn:Hl.
  - intros [= <- <-]. split; [reflexivity | now left].
  - destruct (calculateCommunityBounds community) as [b|] eqn:Hb.
    + intros [= <- <-]. split; [reflexivity|]. right. exists key, b.
      now repeat split.
    + intros [= <- <-]. split; [reflexivity | now left].
Qed.

Lemma process_community_cache (timeRange : string)
    (recentSpatialIndex previousSpatialIndex : SpatialIndex)
    (community : Community) (trends trends' : gmap string Trend)
    (cache cache' : Cache) :
  process_community timeRange recentSpatialIndex previousSpatialIndex
    community trends cache = Normal (trends', cache') →
  results cache' = results cache
  ∧ (communityBounds cache' = communityBounds cache
     ∨ ∃ key bounds,
         bounds_key community = Normal key
         ∧ communityBounds cache !! key = None
         ∧ calculateCommunityBounds community = Some bounds
         ∧ communityBounds cache'
           = <[key := bounds]> (communityBounds cache)).
Proof.
  unfold process_community.
  destruct (length (getPolygonCoordinates (geometry community)) <? 3)%nat.
  { intros [= <- <-]. split; [reflexivity | now left]. }
  destruct (getCrimesInCommunityBounds community recentSpatialIndex _ cache)
    as [[cr cache1]|] eqn:H1; [|discriminate].
  destruct (getCrimesInCommunityBounds community previousSpatialIndex _ cache1)
    as [[cp cache2]|] eqn:H2; [|discriminate].
  intros [= <- <-].
  apply getCrimesInCommunityBounds_cache in H1 as [Hr1 H1].
  apply getCrimesInCommunityBounds_cache in H2 as [Hr2 H2].
  split; [congruence|].
  destruct H1 as [-> | (key & b & Hk & Hnone & Hb & Hins)].
  - destruct H2 as [-> | H2]; [now left | now right].
  - right. exists key, b. repeat split; try assumption.
    destruct H2 as [-> | (key' & b' & Hk' & Hnone' & _)]; [assumption|].
    assert (key' = key) as -> by congruence.
    rewrite Hins, lookup_insert_eq in Hnone'. discriminate.
Qed.

(** What the step of the loop writes for a boundary with a bounding box
    when the bounds in use are its own. *)
Lemma process_community_exact (timeRange : string)
    (recentPeriodCrimes previousPeriodCrimes : list Crime)
    (community : Community) (trends : gmap string Trend) (cache : Cache)
    (key : option string) (bounds : Bounds) :
  calculateCommunityBounds community = Some bounds →
  bounds_key community = Normal key →
  communityBounds cache !! key = None
  ∨ communityBounds cache !! key = Some bounds →
  ∃ record cache',
    process_community timeRange
      (createSpatialIndex
         (Some {| crime_features := Some recentPeriodCrimes |}) (1 # 100))
      (createSpatialIndex
         (Some {| crime_features := Some previousPeriodCrimes |}) (1 # 100))
      community trends cache
    = Normal (<[communityId_of community := record]> trends, cache')
    ∧ recentCount record
      = length (List.filter
                  (Direct.inside (getPolygonCoordinates (geometry community))
                     bounds) recentPeriodCrimes)
    ∧ previousCount record
      = length (List.filter
                  (Direct.inside (getPolygonCoordinates (geometry community))
                     bounds) previousPeriodCrimes)
    ∧ ∀ label,
        crimeTypes record !! label
        = Direct.counted_as label
            (length (List.filter
                          (λ crime,
                             Direct.inside
                               (getPolygonCoordinates (geometry community))
                               bounds crime
                             && Direct.labelled label crime)
                          recentPeriodCrimes)).
Proof.
  intros Hbounds Hkey Hcache.
  assert (0 < 1 # 100) as Hg by reflexivity.
  destruct (grid_query_is_plain_filter_aux recentPeriodCrimes community cache
              key bounds Hbounds Hkey Hcache)
    as (cr & cache1 & Hq1 & Hp1 & Hcache1).
  destruct (grid_query_is_plain_filter_aux previousPeriodCrimes community
              cache1 key bounds Hbounds Hkey (or_intror Hcache1))
    as (cp & cache2 & Hq2 & Hp2 & _).
  unfold process_community.
  assert ((length (getPolygonCoordinates (geometry community)) <? 3)%nat
          = false) as ->.
  { unfold calculateCommunityBounds in Hbounds.
    destruct (length (getPolygonCoordinates (geometry community)) <? 3)%nat;
      [discriminate | reflexivity]. }
  rewrite Hq1, Hq2. eexists. eexists. split; [reflexivity|]. cbn.
  pose proof (filter_Permutation_list
                (crime_in_community (getPolygonCoordinates (geometry community)))
                _ _ Hp1) as Hf1.
  pose proof (filter_Permutation_list
                (crime_in_community (getPolygonCoordinates (geometry community)))
                _ _ Hp2) as Hf2.
  rewrite filter_filter_andb in Hf1, Hf2.
  repeat split.
  - exact (Permutation_length Hf1).
  - exact (Permutation_length Hf2).
  - intros label.
    rewrite (count_type_fold label _ ∅ 0%nat) by apply lookup_empty.
    rewrite (Permutation_length
               (filter_Permutation_list (Direct.labelled label) _ _ Hf1)).
    now rewrite filter_filter_andb.
Qed.

Lemma communities_forEach_before (timeRange : string)
    (recentSpatialIndex previousSpatialIndex : SpatialIndex)
    (before rest : list Community) (key : option string) (bounds : Bounds) :
  Forall (λ c, ¬ Spec.raises c ∧ bounds_key c ≠ Normal key) before →
  ∀ (trends : gmap string Trend) (cache : Cache),
    communityBounds cache !! key = None
    ∨ communityBounds cache !! key = Some bounds →
    ∃ trends1 cache1,
      communities_forEach timeRange recentSpatialIndex previousSpatialIndex
        (before ++ rest) trends cache
      = communities_forEach timeRange recentSpatialIndex previousSpatialIndex
          rest trends1 cache1
      ∧ (communityBounds cache1 !! key = None
         ∨ communityBounds cache1 !! key = Some bounds).
Proof.
  induction 1 as [|c before [Hnr Hk] _ IH]; intros trends cache Hcache.
  - simpl. eauto.
  - destruct (process_community_normal timeRange recentSpatialIndex
                previousSpatialIndex c trends cache Hnr) as (t' & c' & Hp).
    simpl. rewrite Hp. apply IH.
    apply process_community_cache in Hp
      as [_ [-> | (key' & b & Hk' & _ & _ & ->)]]; [assumption|].
    rewrite lookup_insert_ne by congruence. assumption.
Qed.

Lemma communities_forEach_keeps_record (timeRange : string)
    (recentSpatialIndex previousSpatialIndex : SpatialIndex)
    (communityId' : string) (after : list Community) :
  Forall (λ c, communityId_of c ≠ communityId') after →
  ∀ (trends : gmap string Trend) (cache : Cache),
    (communities_forEach timeRange recentSpatialIndex previousSpatialIndex
       after trends cache).1.1 !! communityId'
    = trends !! communityId'.
Proof.
  induction 1 as [|c after Hc _ IH]; intros trends cache; [reflexivity|].
  simpl.
  destruct (process_community _ _ _ c trends cache) as [[trends' cache']|]
    eqn:Hp; [|reflexivity].
  rewrite IH. apply process_community_writes in Hp as (record & -> & _).
  now rewrite lookup_insert_ne.
Qed.

(** The record of a boundary with a bounding box, when the bounds in use
    are its own, no boundary before it throws or shares its cache key,
    and no boundary after it shares its identifier. *)
Lemma calculateSafetyTrends_exact
    (clock : Clock) (cache : Cache) (before after : list Community)
    (community : Community) (crime : Crime) (others : list Crime)
    (timeRange : string) (selectedCrimeTypes : option (list string))
    (key : option string) (bounds : Bounds) :
  calculateCommunityBounds community = Some bounds →
  bounds_key community = Normal key →
  communityBounds cache !! key = None
  ∨ communityBounds cache !! key = Some bounds →
  Forall (λ c, ¬ Spec.raises c ∧ bounds_key c ≠ Normal key) before →
  Forall (λ c, communityId_of c ≠ communityId_of community) after →
  ∃ record,
    (calculateSafetyTrends clock cache
       (Some {| features := Some (before ++ community :: after) |})
       (Some {| crime_features := Some (crime :: others) |})
       timeRange selectedCrimeTypes).1 !! communityId_of community
    = Some record
    ∧ recentCount record
      = length (List.filter
                  (Direct.inside (getPolygonCoordinates (geometry community))
                     bounds)
                  (Direct.bucket is_recent clock timeRange selectedCrimeTypes
                     (crime :: others)))
    ∧ previousCount record
      = length (List.filter
                  (Direct.inside (getPolygonCoordinates (geometry community))
                     bounds)
                  (Direct.bucket is_previous clock timeRange
                     selectedCrimeTypes (crime :: others)))
    ∧ ∀ label,
        crimeTypes record !! label
        = Direct.counted_as label
            (length (List.filter
                          (λ c,
                             Direct.inside
                               (getPolygonCoordinates (geometry community))
                               bounds c
                             && Direct.labelled label c)
                          (Direct.bucket is_recent clock timeRange
                             selectedCrimeTypes (crime :: others)))).
Proof.
  intros Hbounds Hkey Hcache Hbefore Hafter.
  unfold calculateSafetyTrends.
  change (List.filter
            (λ c, is_recent (crime_bucket clock timeRange selectedCrimeTypes c))
            (crime :: others))
    with (Direct.bucket is_recent clock timeRange selectedCrimeTypes
            (crime :: others)).
  change (List.filter
            (λ c, is_previous
                    (crime_bucket clock timeRange selectedCrimeTypes c))
            (crime :: others))
    with (Direct.bucket is_previous clock timeRange selectedCrimeTypes
            (crime :: others)).
  set (recentPeriodCrimes :=
         Direct.bucket is_recent clock timeRange selectedCrimeTypes
           (crime :: others)).
  set (previousPeriodCrimes :=
         Direct.bucket is_previous clock timeRange selectedCrimeTypes
           (crime :: others)).
  destruct (communities_forEach_before timeRange
              (createSpatialIndex
                 (Some {| crime_features := Some recentPeriodCrimes |})
                 (1 # 100))
              (createSpatialIndex
                 (Some {| crime_features := Some previousPeriodCrimes |})
                 (1 # 100))
              before (community :: after) key bounds Hbefore ∅ cache Hcache)
    as (trends1 & cache1 & -> & Hcache1).
  destruct (process_community_exact timeRange recentPeriodCrimes
              previousPeriodCrimes community trends1 cache1 key bounds
              Hbounds Hkey Hcache1)
    as (record & cache2 & Hstep & Hr & Hp & Ht).
  cbn [communities_forEach]. rewrite Hstep.
  pose proof (communities_forEach_keeps_record timeRange
                (createSpatialIndex
                   (Some {| crime_features := Some recentPeriodCrimes |})
                   (1 # 100))
                (createSpatialIndex
                   (Some {| crime_features := Some previousPeriodCrimes |})
                   (1 # 100))
                (communityId_of community) after Hafter
                (<[communityId_of community := record]> trends1) cache2)
    as Hkeep.
  rewrite lookup_insert_eq in Hkeep.
  exists record. split; [|now repeat split].
  destruct (communities_forEach _ _ _ after _ cache2) as [[trends2 cache3] []];
    exact Hkeep.
Qed.

(** X2.  The counts of a record are exact.  For a boundary with a
    bounding box, when the bounds in use are its own (the cache holds
    under its key nothing or that box, and no earlier boundary has the
    key), no earlier boundary makes the loop throw and no later
    boundary has its identifier: [recentCount] is the number of crimes
    of the recent bucket that have two coordinates, lie within the
    bounding box and are contained in the polygon, and [previousCount]
    the same number for the previous bucket. *)
Theorem counts_are_exact
    (clock : Clock) (cache : Cache) (before after : list Community)
    (community : Community) (crime : Crime) (others : list Crime)
    (timeRange : string) (selectedCrimeTypes : option (list string))
    (key : option string) (bounds : Bounds) :
  calculateCommunityBounds community = Some bounds →
  bounds_key community = Normal key →
  communityBounds cache !! key = None
  ∨ communityBounds cache !! key = Some bounds →
  Forall (λ c, ¬ Spec.raises c ∧ bounds_key c ≠ Normal key) before →
  Forall (λ c, communityId_of c ≠ communityId_of community) after →
  ∃ record,
    (calculateSafetyTrends clock cache
       (Some {| features := Some (before ++ community :: after) |})
       (Some {| crime_features := Some (crime :: others) |})
       timeRange selectedCrimeTypes).1 !! communityId_of community
    = Some record
    ∧ recentCount record
      = length (List.filter
                  (Direct.inside (getPolygonCoordinates (geometry community))
                     bounds)
                  (Direct.bucket is_recent clock timeRange selectedCrimeTypes
                     (crime :: others)))
    ∧ previousCount record
      = length (List.filter
                  (Direct.inside (getPolygonCoordinates (geometry community))
                     bounds)
                  (Direct.bucket is_previous clock timeRange
                     selectedCrimeTypes (crime :: others))).
Proof.
  intros Hbounds Hkey Hcache Hbefore Hafter.
  destruct (calculateSafetyTrends_exact clock cache before after community
              crime others timeRange selectedCrimeTypes key bounds
              Hbounds Hkey Hcache Hbefore Hafter)
    as (record & Hl & Hr & Hp & _).
  exists record. now repeat split.
Qed.

Lemma counts_are_exact_witness :
  ∃ record,
    (calculateSafetyTrends Sample.clock Sample.empty_cache
       (Some {| features := Some ([Sample.sliver] ++ Sample.square :: []) |})
       (Some {| crime_features :=
                  Some (Sample.centre 2025 :: Sample.three_years) |})
       "1year" None).1 !! communityId_of Sample.square
    = Some record
    ∧ recentCount record
      = length (List.filter
                  (Direct.inside
                     (getPolygonCoordinates (geometry Sample.square))
                     {| minLat := 0; maxLat := 1; minLon := 0; maxLon := 1 |})
                  (Direct.bucket is_recent Sample.clock "1year" None
                     (Sample.centre 2025 :: Sample.three_years)))
    ∧ previousCount record
      = length (List.filter
                  (Direct.inside
                     (getPolygonCoordinates (geometry Sample.square))
                     {| minLat := 0; maxLat := 1; minLon := 0; maxLon := 1 |})
                  (Direct.bucket is_previous Sample.clock "1year" None
                     (Sample.centre 2025 :: Sample.three_years))).
Proof.
  apply (counts_are_exact Sample.clock Sample.empty_cache [Sample.sliver] []
           Sample.square (Sample.centre 2025) Sample.three_years "1year" None
           (Some "square")).
  - reflexivity.
  - reflexivity.
  - left. reflexivity.
  - repeat constructor.
    + intros (_ & Hid & _). vm_compute in Hid. discriminate.
    + vm_compute. discriminate.
  - constructor.
Defined.

(** X3.  The breakdown of a record is exact.  Under the conditions of
    X2, a label other than '__proto__' is a key of [crimeTypes] exactly
    when some crime of the recent bucket that is counted for the
    boundary carries it as its [text_general_code]; its value is the
    number of those crimes, except for a label that names a function
    member of [Object.prototype] ('constructor', 'toString', ...), whose
    value is the source text of that function followed by one '1' per
    crime.  '__proto__' is never a key. *)
Theorem crimeTypes_are_exact
    (clock : Clock) (cache : Cache) (before after : list Community)
    (community : Community) (crime : Crime) (others : list Crime)
    (timeRange : string) (selectedCrimeTypes : option (list string))
    (key : option string) (bounds : Bounds) :
  calculateCommunityBounds community = Some bounds →
  bounds_key community = Normal key →
  communityBounds cache !! key = None
  ∨ communityBounds cache !! key = Some bounds →
  Forall (λ c, ¬ Spec.raises c ∧ bounds_key c ≠ Normal key) before →
  Forall (λ c, communityId_of c ≠ communityId_of community) after →
  ∃ record,
    (calculateSafetyTrends clock cache
       (Some {| features := Some (before ++ community :: after) |})
       (Some {| crime_features := Some (crime :: others) |})
       timeRange selectedCrimeTypes).1 !! communityId_of community
    = Some record
    ∧ ∀ label,
        crimeTypes record !! label
        = Direct.counted_as label
            (length (List.filter
                          (λ c,
                             Direct.inside
                               (getPolygonCoordinates (geometry community))
                               bounds c
                             && Direct.labelled label c)
                          (Direct.bucket is_recent clock timeRange
                             selectedCrimeTypes (crime :: others)))).
Proof.
  intros Hbounds Hkey Hcache Hbefore Hafter.
  destruct (calculateSafetyTrends_exact clock cache before after community
              crime others timeRange selectedCrimeTypes key bounds
              Hbounds Hkey Hcache Hbefore Hafter)
    as (record & Hl & _ & _ & Ht).
  exists record. now split.
Qed.

Lemma crimeTypes_are_exact_witness :
  ∃ record,
    (calculateSafetyTrends Sample.clock Sample.empty_cache
       (Some {| features := Some ([] ++ Sample.square :: []) |})
       (Some {| crime_features :=
                  Some (Sample.tagged :: Sample.three_years) |})
       "1year" None).1 !! communityId_of Sample.square
    = Some record
    ∧ ∀ label,
        crimeTypes record !! label
        = Direct.counted_as label
            (length (List.filter
                          (λ c,
                             Direct.inside
                               (getPolygonCoordinates (geometry Sample.square))
                               {| minLat := 0; maxLat := 1;
                                  minLon := 0; maxLon := 1 |} c
                             && Direct.labelled label c)
                          (Direct.bucket is_recent Sample.clock "1year" None
                             (Sample.tagged :: Sample.three_years)))).
Proof.
  apply (crimeTypes_are_exact Sample.clock Sample.empty_cache [] []
           Sample.square Sample.tagged Sample.three_years "1year" None
           (Some "square")).
  - reflexivity.
  - reflexivity.
  - left. reflexivity.
  - constructor.
  - constructor.
Defined.

(** Two counted crimes with the label 'constructor' leave the string
    that ends in '11', one with the label '__proto__' leaves no key. *)
Lemma inherited_labels_are_not_counted :
  fold_left count_type
    [Sample.crime_at (1 # 2) (1 # 2) "constructor" 2025;
     Sample.crime_at (1 # 2) (1 # 2) "__proto__" 2025;
     Sample.crime_at (1 # 2) (1 # 2) "constructor" 2025;
     Sample.crime_at (1 # 2) (1 # 2) "Thefts" 2025] ∅
  = {["constructor" := Appended "constructor" 2; "Thefts" := Counted 1]}.
Proof. vm_compute. reflexivity. Qed.

(** ** The first vertex of a ring *)

Lemma edges_rotate_one (v : Vertex) (l : list Vertex) :
  Permutation (Spec.edges (l ++ [v])) (Spec.edges (v :: l)).
Proof.
  unfold Spec.edges. rewrite last_last, edges_from_snoc.
  assert (List.last (v :: l) (0, 0) = List.last l v) as Hlast.
  { destruct l as [|w l']; [reflexivity|].
    change (List.last (v :: w :: l') (0, 0)) with (List.last (w :: l') (0, 0)).
    apply last_default_irrelevant. }
  cbn [Spec.edges_from]. rewrite Hlast.
  symmetry. apply Permutation_cons_append.
Qed.

Lemma edges_rotate (l1 : list Vertex) :
  ∀ l2 : list Vertex,
    Permutation (Spec.edges (l1 ++ l2)) (Spec.edges (l2 ++ l1)).
Proof.
  induction l1 as [|v l1 IH]; intros l2.
  - now rewrite app_nil_r.
  - simpl. rewrite <- edges_rotate_one, <- app_assoc, (IH (l2 ++ [v])),
      <- app_assoc. reflexivity.
Qed.

(** X5.  Containment does not depend on the vertex a ring starts with:
    the ring [l2 ++ l1] contains the points that [l1 ++ l2] contains. *)
Theorem starting_vertex_irrelevant (lat lon : Q) (l1 l2 : list Vertex) :
  pointInPolygon lat lon (l1 ++ l2) = pointInPolygon lat lon (l2 ++ l1).
Proof.
  unfold pointInPolygon. rewrite !length_app, (Nat.add_comm (length l2)).
  destruct (length l1 + length l2 <? 3)%nat; [reflexivity|].
  rewrite !pointInPolygon_loop_edges.
  change (Spec.edges_from (List.last ?p (0, 0)) ?p) with (Spec.edges p).
  rewrite (existsb_Permutation _ _ _ (edges_rotate l1 l2)).
  now rewrite (crossings_Permutation _ _ _ _ (edges_rotate l1 l2)).
Qed.

(** ** The bounding box *)

Lemma Qmin_choice (x y : Q) : Qmin x y = x ∨ Qmin x y = y.
Proof.
  unfold Qmin, GenericMinMax.gmin. destruct (x ?= y); auto.
Qed.

Lemma Qmax_choice (x y : Q) : Qmax x y = x ∨ Qmax x y = y.
Proof.
  unfold Qmax, GenericMinMax.gmax. destruct (x ?= y); auto.
Qed.

Lemma bounds_fold_attained (coords : list Vertex) :
  ∀ (b0 : Bounds),
    let b := fold_left
               (fun b v =>
                  {| minLat := JS.Math_min (minLat b) (fst v);
                     maxLat := JS.Math_max (maxLat b) (fst v);
                     minLon := JS.Math_min (minLon b) (snd v);
                     maxLon := JS.Math_max (maxLon b) (snd v) |})
               coords b0 in
    (minLat b = minLat b0 ∨ ∃ v, In v coords ∧ minLat b = fst v)
    ∧ (maxLat b = maxLat b0 ∨ ∃ v, In v coords ∧ maxLat b = fst v)
    ∧ (minLon b = minLon b0 ∨ ∃ v, In v coords ∧ minLon b = snd v)
    ∧ (maxLon b = maxLon b0 ∨ ∃ v, In v coords ∧ maxLon b = snd v).
Proof.
  induction coords as [|w coords IH]; intros b0; cbv zeta.
  - simpl. tauto.
  - simpl fold_left.
    match goal with
    | |- context [fold_left _ coords ?b1] =>
        destruct (IH b1) as (H1 & H2 & H3 & H4); cbv zeta in H1, H2, H3, H4
    end.
    cbn [minLat maxLat minLon maxLon] in H1, H2, H3, H4.
    unfold JS.Math_min, JS.Math_max in *.
    repeat split.
    + destruct H1 as [-> | (v & Hv & ->)]; [|right; exists v; simpl; tauto].
      destruct (Qmin_choice (minLat b0) (fst w)) as [-> | ->];
        [now left | right; exists w; simpl; tauto].
    + destruct H2 as [-> | (v & Hv & ->)]; [|right; exists v; simpl; tauto].
      destruct (Qmax_choice (maxLat b0) (fst w)) as [-> | ->];
        [now left | right; exists w; simpl; tauto].
    + destruct H3 as [-> | (v & Hv & ->)]; [|right; exists v; simpl; tauto].
      destruct (Qmin_choice (minLon b0) (snd w)) as [-> | ->];
        [now left | right; exists w; simpl; tauto].
    + destruct H4 as [-> | (v & Hv & ->)]; [|right; exists v; simpl; tauto].
      destruct (Qmax_choice (maxLon b0) (snd w)) as [-> | ->];
        [now left | right; exists w; simpl; tauto].
Qed.

(** X6.  [calculateCommunityBounds] gives no box exactly when the
    geometry extracts to fewer than three vertices; otherwise the box
    covers every extracted vertex and each of its four sides is the
    latitude or the longitude of some extracted vertex. *)
Theorem bounding_box_is_tight (community : Community) :
  match calculateCommunityBounds community with
  | None => (length (getPolygonCoordinates (geometry community)) < 3)%nat
  | Some bounds =>
      (3 <= length (getPolygonCoordinates (geometry community)))%nat
      ∧ (∀ v, In v (getPolygonCoordinates (geometry community)) →
              Spec.covers bounds v)
      ∧ (∃ v, In v (getPolygonCoordinates (geometry community))
              ∧ minLat bounds = fst v)
      ∧ (∃ v, In v (getPolygonCoordinates (geometry community))
              ∧ maxLat bounds = fst v)
      ∧ (∃ v, In v (getPolygonCoordinates (geometry community))
              ∧ minLon bounds = snd v)
      ∧ (∃ v, In v (getPolygonCoordinates (geometry community))
              ∧ maxLon bounds = snd v)
  end.
Proof.
  destruct (calculateCommunityBounds community) as [bounds|] eqn:Hb.
  - split.
    { unfold calculateCommunityBounds in Hb.
      destruct (Nat.ltb_spec
                  (length (getPolygonCoordinates (geometry community))) 3);
        [discriminate | assumption]. }
    split.
    { intros v Hv. eapply calculateCommunityBounds_covers; eassumption. }
    unfold calculateCommunityBounds in Hb.
    destruct (length (getPolygonCoordinates (geometry community)) <? 3)%nat;
      [discriminate|].
    destruct (getPolygonCoordinates (geometry community))
      as [|[lat0 lon0] rest]; [discriminate|].
    injection Hb as <-.
    destruct (bounds_fold_attained ((lat0, lon0) :: rest)
                {| minLat := lat0; maxLat := lat0;
                   minLon := lon0; maxLon := lon0 |})
      as (H1 & H2 & H3 & H4).
    cbv zeta in H1, H2, H3, H4. cbn [minLat maxLat minLon maxLon] in *.
    repeat split.
    + destruct H1 as [H1 | H1]; [|exact H1].
      exists (lat0, lon0). split; [now left | exact H1].
    + destruct H2 as [H2 | H2]; [|exact H2].
      exists (lat0, lon0). split; [now left | exact H2].
    + destruct H3 as [H3 | H3]; [|exact H3].
      exists (lat0, lon0). split; [now left | exact H3].
    + destruct H4 as [H4 | H4]; [|exact H4].
      exists (lat0, lon0). split; [now left | exact H4].
  - unfold calculateCommunityBounds in Hb.
    destruct (Nat.ltb_spec
                (length (getPolygonCoordinates (geometry community))) 3)
      as [Hlt | Hge]; [assumption|].
    destruct (getPolygonCoordinates (geometry community))
      as [|[lat0 lon0] rest]; [simpl in Hge; lia | discriminate].
Qed.

(** ** The cache of bounds *)

Lemma communities_forEach_cache (timeRange : string)
    (recentSpatialIndex previousSpatialIndex : SpatialIndex)
    (all : list Community) (cache0 : Cache) (cs : list Community) :
  (∀ c, In c cs → In c all) →
  ∀ (trends : gmap string Trend) (cache : Cache),
    (∀ key,
       match communityBounds cache0 !! key with
       | Some b => communityBounds cache !! key = Some b
       | None =>
           communityBounds cache !! key = None
           ∨ ∃ c b, In c all ∧ bounds_key c = Normal key
                    ∧ calculateCommunityBounds c = Some b
                    ∧ communityBounds cache !! key = Some b
       end) →
    ∀ key,
      match communityBounds cache0 !! key with
      | Some b =>
          communityBounds
            (communities_forEach timeRange recentSpatialIndex
               previousSpatialIndex cs trends cache).1.2 !! key = Some b
      | None =>
          communityBounds
            (communities_forEach timeRange recentSpatialIndex
               previousSpatialIndex cs trends cache).1.2 !! key = None
          ∨ ∃ c b, In c all ∧ bounds_key c = Normal key
                   ∧ calculateCommunityBounds c = Some b
                   ∧ communityBounds
                       (communities_forEach timeRange recentSpatialIndex
                          previousSpatialIndex cs trends cache).1.2 !! key
                     = Some b
      end.
Proof.
  induction cs as [|c cs IH]; intros Hall trends cache Hinv; [exact Hinv|].
  simpl.
  destruct (process_community _ _ _ c trends cache) as [[trends' cache']|]
    eqn:Hp; [|exact Hinv].
  apply IH; [intros c' Hc'; apply Hall; now right|].
  apply process_community_cache in Hp
    as [_ [Hsame | (key' & b' & Hk' & Hnone & Hb' & Hins)]].
  - now rewrite Hsame.
  - intros key. specialize (Hinv key). rewrite Hins.
    destruct (decide (key' = key)) as [-> | Hne].
    + rewrite lookup_insert_eq.
      destruct (communityBounds cache0 !! key) as [b|]; [congruence|].
      right. exists c, b'. repeat split; try assumption. apply Hall. now left.
    + now rewrite lookup_insert_ne.
Qed.

(** X7.  A call never changes or removes a cached bounding box, and an
    entry that it adds is the bounding box of one of the boundaries of
    the call, under the cache key of that boundary. *)
Theorem bounds_cache_only_grows
    (clock : Clock) (cache : Cache) (communities : option CommunityCollection)
    (crimeData : option CrimeCollection) (timeRange : string)
    (selectedCrimeTypes : option (list string)) (key : option string) :
  match communityBounds cache !! key with
  | Some bounds =>
      communityBounds
        (calculateSafetyTrends clock cache communities crimeData timeRange
           selectedCrimeTypes).2 !! key = Some bounds
  | None =>
      communityBounds
        (calculateSafetyTrends clock cache communities crimeData timeRange
           selectedCrimeTypes).2 !! key = None
      ∨ ∃ cs community bounds,
          communities = Some {| features := Some cs |}
          ∧ In community cs
          ∧ bounds_key community = Normal key
          ∧ calculateCommunityBounds community = Some bounds
          ∧ communityBounds
              (calculateSafetyTrends clock cache communities crimeData
                 timeRange selectedCrimeTypes).2 !! key = Some bounds
  end.
Proof.
  unfold calculateSafetyTrends.
  destruct communities as [[[cs|]]|];
    try (cbn [snd]; destruct (communityBounds cache !! key);
         [reflexivity | now left]).
  destruct crimeData as [[[[|c0 crs]|]]|];
    try (cbn [snd]; destruct (communityBounds cache !! key);
         [reflexivity | now left]).
  cbv zeta.
  match goal with
  | |- context [communities_forEach ?t ?ri ?pi cs ?tr cache] =>
      pose proof (communities_forEach_cache t ri pi cs cache cs
                    (λ c H, H) tr cache) as Hloop;
      destruct (communities_forEach t ri pi cs tr cache)
        as [[trends' cache'] threw]
  end.
  cbn [fst snd] in Hloop.
  assert (communityBounds
            (if threw
             then (trends', cache')
             else (trends', {| communityBounds := communityBounds cache';
                               results := trends' |})).2
          = communityBounds cache') as Hsame by (now destruct threw).
  assert (∀ k,
            match communityBounds cache !! k with
            | Some b => communityBounds cache !! k = Some b
            | None =>
                communityBounds cache !! k = None
                ∨ ∃ c b, In c cs ∧ bounds_key c = Normal k
                         ∧ calculateCommunityBounds c = Some b
                         ∧ communityBounds cache !! k = Some b
            end) as Hrefl.
  { intros k. destruct (communityBounds cache !! k); [reflexivity | now left]. }
  specialize (Hloop Hrefl key). clear Hrefl.
  destruct threw; cbn [snd communityBounds] in *;
    destruct (communityBounds cache !! key) as [b|]; try exact Hloop;
    (destruct Hloop as [Hn | (c & b & Hin & Hk & Hb & Hl)];
     [now left | right; exists cs, c, b; now repeat split]).
Qed.

(** ** A window that is none of the three *)

Lemma crime_bucket_unknown (clock : Clock) (timeRange : string)
    (selectedCrimeTypes : option (list string)) (crime : Crime) :
  timeRange ≠ "6months" → timeRange ≠ "1year" → timeRange ≠ "2years" →
  crime_bucket clock timeRange selectedCrimeTypes crime = PeriodOther.
Proof.
  intros H6 H1 H2. unfold crime_bucket.
  destruct (isCrimeTypeSelected selectedCrimeTypes crime) as [[|]|];
    try reflexivity.
  destruct (crime_properties crime) as [p|]; [|reflexivity].
  destruct (dispatch_date_time p); try reflexivity.
  unfold getPeriodType.
  apply String.eqb_neq in H6, H1, H2. now rewrite H6, H1, H2.
Qed.

Lemma filter_all_false {A : Type} (f : A → bool) (l : list A) :
  (∀ x, f x = false) → List.filter f l = [].
Proof.
  intros Hf. induction l as [|x l IH]; [reflexivity|].
  cbn [List.filter]. now rewrite Hf.
Qed.

Lemma getCrimesInCommunityBounds_empty (community : Community) (gridSize : Q)
    (cache cache' : Cache) (crimes : list Crime) :
  getCrimesInCommunityBounds community ∅ gridSize cache
  = Normal (crimes, cache') →
  crimes = [].
Proof.
  unfold getCrimesInCommunityBounds.
  destruct (bounds_key community) as [key|]; [|discriminate].
  destruct (communityBounds cache !! key).
  - intros [= <- <-]. apply scan_cells_empty.
  - destruct (calculateCommunityBounds community); intros [= <- <-];
      [apply scan_cells_empty | reflexivity].
Qed.

Lemma process_community_empty (timeRange : string) (community : Community)
    (trends trends' : gmap string Trend) (cache cache' : Cache) :
  map_Forall
    (λ _ r, recentCount r = 0%nat ∧ previousCount r = 0%nat
            ∧ changePercent r = 0%float ∧ crimeTypes r = ∅) trends →
  process_community timeRange ∅ ∅ community trends cache
  = Normal (trends', cache') →
  map_Forall
    (λ _ r, recentCount r = 0%nat ∧ previousCount r = 0%nat
            ∧ changePercent r = 0%float ∧ crimeTypes r = ∅) trends'.
Proof.
  intros Hall. unfold process_community.
  destruct (length (getPolygonCoordinates (geometry community)) <? 3)%nat.
  { intros [= <- <-]. apply map_Forall_insert_2; [now repeat split | exact Hall]. }
  destruct (getCrimesInCommunityBounds community ∅ _ cache)
    as [[cr cache1]|] eqn:H1; [|discriminate].
  destruct (getCrimesInCommunityBounds community ∅ _ cache1)
    as [[cp cache2]|] eqn:H2; [|discriminate].
  apply getCrimesInCommunityBounds_empty in H1, H2. subst cr cp.
  intros [= <- <-]. apply map_Forall_insert_2; [|exact Hall].
  cbn [recentCount previousCount changePercent crimeTypes].
  repeat split.
Qed.

(** X8.  A [timeRange] other than '6months', '1year' and '2years' puts
    no crime in either period: every record of the result has both
    counts and the percentage equal to 0 and an empty breakdown. *)
Theorem unknown_window_counts_nothing
    (clock : Clock) (cache : Cache) (communities : option CommunityCollection)
    (crimeData : option CrimeCollection) (timeRange : string)
    (selectedCrimeTypes : option (list string))
    (communityId' : string) (record : Trend) :
  timeRange ≠ "6months" → timeRange ≠ "1year" → timeRange ≠ "2years" →
  (calculateSafetyTrends clock cache communities crimeData timeRange
     selectedCrimeTypes).1 !! communityId' = Some record →
  recentCount record = 0%nat
  ∧ previousCount record = 0%nat
  ∧ changePercent record = 0%float
  ∧ crimeTypes record = ∅.
Proof.
  intros H6 H1 H2. unfold calculateSafetyTrends.
  destruct communities as [[[cs|]]|];
    try (cbn [fst]; rewrite lookup_empty; discriminate).
  destruct crimeData as [[[[|c0 crs]|]]|];
    try (cbn [fst]; rewrite lookup_empty; discriminate).
  cbv zeta.
  rewrite (filter_all_false
             (λ crime, is_recent (crime_bucket clock timeRange
                                    selectedCrimeTypes crime)))
    by (intros crime; now rewrite crime_bucket_unknown).
  rewrite (filter_all_false
             (λ crime, is_previous (crime_bucket clock timeRange
                                      selectedCrimeTypes crime)))
    by (intros crime; now rewrite crime_bucket_unknown).
  change (createSpatialIndex (Some {| crime_features := Some [] |}) (1 # 100))
    with (∅ : SpatialIndex).
  pose proof (communities_forEach_invariant _ timeRange ∅ ∅
                (λ community trends cache0 trends' cache' Hall Hp,
                   process_community_empty timeRange community trends trends'
                     cache0 cache' Hall Hp)
                cs ∅ cache (map_Forall_empty _)) as Hinv.
  destruct (communities_forEach timeRange ∅ ∅ cs ∅ cache)
    as [[trends' cache'] []]; cbn [fst] in *; intros Hl;
    exact (Hinv communityId' record Hl).
Qed.

Lemma unknown_window_counts_nothing_witness :
  ∃ record,
    (calculateSafetyTrends Sample.clock Sample.empty_cache
       (Sample.communities [Sample.square])
       (Sample.crimes Sample.seven_eight) "3years" None).1 !! "square"
    = Some record
    ∧ recentCount record = 0%nat
    ∧ previousCount record = 0%nat
    ∧ changePercent record = 0%float
    ∧ crimeTypes record = ∅.
Proof.
  eexists. split; [vm_compute; reflexivity|].
  apply (unknown_window_counts_nothing Sample.clock Sample.empty_cache
           (Sample.communities [Sample.square])
           (Sample.crimes Sample.seven_eight) "3years" None "square");
    try discriminate.
  vm_compute; reflexivity.
Defined.

(** ** The records of a result *)

Lemma communities_forEach_keyed (P : string → Trend → Prop)
    (R : Community → Prop) (timeRange : string)
    (recentSpatialIndex previousSpatialIndex : SpatialIndex) :
  (∀ community trends cache trends' cache',
     R community →
     map_Forall P trends →
     process_community timeRange recentSpatialIndex previousSpatialIndex
       community trends cache = Normal (trends', cache') →
     map_Forall P trends') →
  ∀ cs, Forall R cs →
  ∀ trends cache,
    map_Forall P trends →
    map_Forall P
      (communities_forEach timeRange recentSpatialIndex previousSpatialIndex
         cs trends cache).1.1.
Proof.
  intros Hstep cs HR.
  induction HR as [|community rest Hc HR IH]; intros trends cache Hall.
  - exact Hall.
  - simpl.
    destruct (process_community _ _ _ community trends cache)
      as [[trends' cache']|] eqn:Hp.
    + apply IH. eapply Hstep; eassumption.
    + exact Hall.
Qed.

Lemma process_community_names (timeRange : string)
    (recentSpatialIndex previousSpatialIndex : SpatialIndex)
    (community : Community) (trends trends' : gmap string Trend)
    (cache cache' : Cache) :
  process_community timeRange recentSpatialIndex previousSpatialIndex
    community trends cache = Normal (trends', cache') →
  ∃ record,
    trends' = <[communityId_of community := record]> trends
    ∧ communityId record = communityId_of community
    ∧ communityName record = communityName_of community
    ∧ (timeRanges record !! timeRange
       = Some {| recent := recentCount record;
                 previous := previousCount record;
                 range_changePercent := changePercent record |}
       ∨ timeRanges record !! timeRange = None
         ∧ timeRange ≠ "6months"
         ∧ record = degenerate_trend (communityId_of community)
                      (communityName_of community)).
Proof.
  unfold process_community.
  destruct (length (getPolygonCoordinates (geometry community)) <? 3)%nat.
  - intros [= <- <-]. eexists. split; [reflexivity|].
    split; [reflexivity|]. split; [reflexivity|].
    cbn [degenerate_trend timeRanges recentCount previousCount changePercent].
    destruct (decide (timeRange = "6months")) as [-> | Hne].
    + left. now rewrite lookup_singleton_eq.
    + right. rewrite lookup_singleton_ne by congruence. now repeat split.
  - destruct (getCrimesInCommunityBounds community recentSpatialIndex _ cache)
      as [[candidateRecent cache1]|]; [|discriminate].
    destruct (getCrimesInCommunityBounds community previousSpatialIndex _ cache1)
      as [[candidatePrevious cache2]|]; [|discriminate].
    intros [= <- <-]. eexists. split; [reflexivity|].
    split; [reflexivity|]. split; [reflexivity|].
    left. cbn [timeRanges recentCount previousCount changePercent].
    now rewrite lookup_insert_eq.
Qed.

(** X9.  Every record of a result belongs to a boundary of the call: it
    is stored under its own [communityId], which is the [id] of some
    boundary of the collection or, for a boundary without [id], its
    name, and it carries the name of that boundary. *)
Theorem records_belong_to_boundaries
    (clock : Clock) (cache : Cache) (communities : option CommunityCollection)
    (crimeData : option CrimeCollection) (timeRange : string)
    (selectedCrimeTypes : option (list string))
    (communityId' : string) (record : Trend) :
  (calculateSafetyTrends clock cache communities crimeData timeRange
     selectedCrimeTypes).1 !! communityId' = Some record →
  communityId record = communityId'
  ∧ ∃ cs community,
      communities = Some {| features := Some cs |}
      ∧ In community cs
      ∧ communityId_of community = communityId'
      ∧ communityName record = communityName_of community.
Proof.
  unfold calculateSafetyTrends.
  destruct communities as [[[cs|]]|];
    try (cbn [fst]; rewrite lookup_empty; discriminate).
  destruct crimeData as [[[[|c0 crs]|]]|];
    try (cbn [fst]; rewrite lookup_empty; discriminate).
  cbv zeta.
  match goal with
  | |- context [communities_forEach ?t ?ri ?pi cs ?tr cache] =>
      pose proof (communities_forEach_keyed
                    (λ k r, communityId r = k
                            ∧ ∃ community,
                                In community cs
                                ∧ communityId_of community = k
                                ∧ communityName r = communityName_of community)
                    (λ community, In community cs) t ri pi) as Hinv;
      set (run := communities_forEach t ri pi cs tr cache) in *
  end.
  assert ((let '(trends', cache', threw) := run in
           if threw
           then (trends', cache')
           else (trends', {| communityBounds := communityBounds cache';
                             results := trends' |})).1 = run.1.1) as ->
    by (now destruct run as [[trends' cache'] []]).
  intros Hl.
  assert (communityId record = communityId'
          ∧ ∃ community,
              In community cs
              ∧ communityId_of community = communityId'
              ∧ communityName record = communityName_of community)
    as [Hid (community & Hin & Hcid & Hname)].
  { refine (Hinv _ cs (proj2 (List.Forall_forall _ cs) (λ c H, H))
              ∅ cache (map_Forall_empty _) communityId' record Hl).
    intros community trends cache0 trends1 cache1 Hin Hall Hp.
    apply process_community_names in Hp as (r & -> & Hid & Hname & _).
    apply map_Forall_insert_2; [|exact Hall].
    split; [exact Hid|]. exists community. now repeat split. }
  split; [exact Hid|]. exists cs, community. now repeat split.
Qed.

Lemma records_belong_to_boundaries_witness :
  ∃ record,
    (calculateSafetyTrends Sample.clock Sample.empty_cache
       (Sample.communities [Sample.sliver; Sample.square])
       (Sample.crimes Sample.seven_eight) "1year" None).1 !! "square"
    = Some record
    ∧ communityId record = "square"
    ∧ ∃ cs community,
        Sample.communities [Sample.sliver; Sample.square]
        = Some {| features := Some cs |}
        ∧ In community cs
        ∧ communityId_of community = "square"
        ∧ communityName record = communityName_of community.
Proof.
  eexists. split; [vm_compute; reflexivity|].
  apply (records_belong_to_boundaries Sample.clock Sample.empty_cache
           (Sample.communities [Sample.sliver; Sample.square])
           (Sample.crimes Sample.seven_eight) "1year" None "square").
  vm_compute; reflexivity.
Defined.

Lemma calculateSafetyTrends_keyed (P : string → Trend → Prop)
    (cs : list Community) (timeRange : string) :
  (∀ recentSpatialIndex previousSpatialIndex community trends cache trends'
     cache',
     In community cs →
     map_Forall P trends →
     process_community timeRange recentSpatialIndex previousSpatialIndex
       community trends cache = Normal (trends', cache') →
     map_Forall P trends') →
  ∀ clock cache crimeData selectedCrimeTypes,
    map_Forall P
      (calculateSafetyTrends clock cache (Some {| features := Some cs |})
         crimeData timeRange selectedCrimeTypes).1.
Proof.
  intros Hstep clock cache crimeData sel.
  unfold calculateSafetyTrends.
  destruct crimeData as [[[[|c0 crs]|]]|]; try apply map_Forall_empty.
  cbv zeta.
  match goal with
  | |- context [communities_forEach ?t ?ri ?pi cs ?tr cache] =>
      pose proof (communities_forEach_keyed P (λ community, In community cs)
                    t ri pi (Hstep ri pi) cs
                    (proj2 (List.Forall_forall _ cs) (λ c H, H))
                    tr cache (map_Forall_empty _)) as Hinv;
      destruct (communities_forEach t ri pi cs tr cache) as [[trends' cache'] []]
  end; exact Hinv.
Qed.

(** X10.  The sub-record of the requested window.  Every record of a
    result carries, under the [timeRange] of the call, a sub-record with
    its own two counts and its own percentage; the only exception is the
    zero record of a degenerate boundary, which always carries a
    '6months' sub-record and no other.  So projecting a result on the
    window it was computed for changes neither count of any record. *)
Theorem requested_window_is_recorded
    (clock : Clock) (cache : Cache) (communities : option CommunityCollection)
    (crimeData : option CrimeCollection) (timeRange : string)
    (selectedCrimeTypes : option (list string))
    (communityId' : string) (record : Trend) :
  (calculateSafetyTrends clock cache communities crimeData timeRange
     selectedCrimeTypes).1 !! communityId' = Some record →
  (timeRanges record !! timeRange
   = Some {| recent := recentCount record;
             previous := previousCount record;
             range_changePercent := changePercent record |}
   ∨ timeRanges record !! timeRange = None
     ∧ timeRange ≠ "6months"
     ∧ record = degenerate_trend (communityId record) (communityName record))
  ∧ ∃ projected,
      getSafetyTrendsForTimeRange
        (calculateSafetyTrends clock cache communities crimeData timeRange
           selectedCrimeTypes).1 timeRange !! communityId'
      = Some projected
      ∧ recentCount projected = recentCount record
      ∧ previousCount projected = previousCount record.
Proof.
  intros Hl.
  assert (timeRanges record !! timeRange
          = Some {| recent := recentCount record;
                    previous := previousCount record;
                    range_changePercent := changePercent record |}
          ∨ timeRanges record !! timeRange = None
            ∧ timeRange ≠ "6months"
            ∧ record = degenerate_trend (communityId record)
                         (communityName record)) as Hsub.
  { destruct communities as [[[cs|]]|];
      try (cbn in Hl; rewrite lookup_empty in Hl; discriminate).
    refine (calculateSafetyTrends_keyed
              (λ _ r,
                 timeRanges r !! timeRange
                 = Some {| recent := recentCount r;
                           previous := previousCount r;
                           range_changePercent := changePercent r |}
                 ∨ timeRanges r !! timeRange = None
                   ∧ timeRange ≠ "6months"
                   ∧ r = degenerate_trend (communityId r) (communityName r))
              cs timeRange _ clock cache crimeData
              selectedCrimeTypes communityId' record Hl).
    intros ri pi community trends cache0 trends1 cache1 _ Hall Hp.
    apply process_community_names in Hp as (r & -> & _ & _ & Hr).
    apply map_Forall_insert_2; [|exact Hall].
    destruct Hr as [Hr | (Hnone & Hne & ->)]; [now left | right].
    now repeat split. }
  split; [exact Hsub|].
  unfold getSafetyTrendsForTimeRange. rewrite lookup_fmap, Hl.
  cbn [fmap option_fmap option_map].
  destruct Hsub as [-> | (-> & _)]; eexists; (split; [reflexivity|]);
    now split.
Qed.

Lemma requested_window_is_recorded_witness :
  ∃ record,
    (calculateSafetyTrends Sample.clock Sample.empty_cache
       (Sample.communities [Sample.sliver; Sample.square])
       (Sample.crimes Sample.seven_eight) "1year" None).1 !! "square"
    = Some record
    ∧ (timeRanges record !! "1year"
       = Some {| recent := recentCount record;
                 previous := previousCount record;
                 range_changePercent := changePercent record |}
       ∨ timeRanges record !! "1year" = None
         ∧ "1year" ≠ "6months"
         ∧ record = degenerate_trend (communityId record)
                      (communityName record))
    ∧ ∃ projected,
        getSafetyTrendsForTimeRange
          (calculateSafetyTrends Sample.clock Sample.empty_cache
             (Sample.communities [Sample.sliver; Sample.square])
             (Sample.crimes Sample.seven_eight) "1year" None).1 "1year"
        !! "square"
        = Some projected
        ∧ recentCount projected = recentCount record
        ∧ previousCount projected = previousCount record.
Proof.
  eexists. split; [vm_compute; reflexivity|].
  apply (requested_window_is_recorded Sample.clock Sample.empty_cache
           (Sample.communities [Sample.sliver; Sample.square])
           (Sample.crimes Sample.seven_eight) "1year" None "square").
  vm_compute; reflexivity.
Defined.

(** X11.  Projecting twice.  Projecting a mapping on the same window a
    second time changes nothing; projecting on one window and then on
    another gives, for a record that has a sub-record for the second
    window, the projection on the second window, and for any other
    record the projection on the first. *)
Theorem projection_twice
    (trends : gmap string Trend) (first second communityId' : string) :
  getSafetyTrendsForTimeRange (getSafetyTrendsForTimeRange trends first) first
  = getSafetyTrendsForTimeRange trends first
  ∧ getSafetyTrendsForTimeRange (getSafetyTrendsForTimeRange trends first)
      second !! communityId'
    = match trends !! communityId' with
      | Some trend =>
          match timeRanges trend !! second with
          | Some _ => getSafetyTrendsForTimeRange trends second !! communityId'
          | None => getSafetyTrendsForTimeRange trends first !! communityId'
          end
      | None => None
      end.
Proof.
  unfold getSafetyTrendsForTimeRange. split.
  - rewrite <- map_fmap_compose. apply map_fmap_ext. intros k trend _.
    cbn [compose].
    destruct (timeRanges trend !! first) as [d|] eqn:Hd;
      cbn [timeRanges recent previous]; now rewrite Hd.
  - rewrite !lookup_fmap.
    destruct (trends !! communityId') as [trend|]; [|reflexivity].
    cbn [fmap option_fmap option_map].
    destruct (timeRanges trend !! first) as [d1|] eqn:H1;
      destruct (timeRanges trend !! second) as [d2|] eqn:H2;
      cbn [timeRanges]; rewrite ?H1, ?H2; reflexivity.
Qed.

(** ** A boundary on which the loop throws *)

Lemma process_community_raises (timeRange : string)
    (recentSpatialIndex previousSpatialIndex : SpatialIndex)
    (community : Community) (trends : gmap string Trend) (cache : Cache) :
  Spec.raises community →
  process_community timeRange recentSpatialIndex previousSpatialIndex
    community trends cache = Thrown.
Proof.
  intros (Hdeg & Hid & Hprops). unfold process_community.
  destruct (length (getPolygonCoordinates (geometry community)) <? 3)%nat
    eqn:Hlen.
  { apply Nat.ltb_lt in Hlen. contradiction. }
  unfold getCrimesInCommunityBounds, bounds_key. now rewrite Hid, Hprops.
Qed.

Lemma communities_forEach_raises (timeRange : string)
    (recentSpatialIndex previousSpatialIndex : SpatialIndex)
    (community : Community) (after : list Community) :
  Spec.raises community →
  ∀ before trends cache,
    communities_forEach timeRange recentSpatialIndex previousSpatialIndex
      (before ++ community :: after) trends cache
    = ((communities_forEach timeRange recentSpatialIndex previousSpatialIndex
          before trends cache).1, true).
Proof.
  intros Hr before.
  induction before as [|b before IH]; intros trends cache; simpl.
  - now rewrite process_community_raises.
  - destruct (process_community _ _ _ b trends cache) as [[trends' cache']|];
      [apply IH | reflexivity].
Qed.

Lemma communities_forEach_results (timeRange : string)
    (recentSpatialIndex previousSpatialIndex : SpatialIndex)
    (cs : list Community) :
  ∀ trends cache,
    results (communities_forEach timeRange recentSpatialIndex
               previousSpatialIndex cs trends cache).1.2
    = results cache.
Proof.
  induction cs as [|c cs IH]; intros trends cache; simpl; [reflexivity|].
  destruct (process_community _ _ _ c trends cache) as [[trends' cache']|]
    eqn:Hp; [|reflexivity].
  rewrite IH. now apply process_community_cache in Hp as [-> _].
Qed.

(** X12.  A boundary that is not degenerate and has neither [id] nor
    [properties] ends the call: the result is the one of the boundaries
    before it, whatever follows it in the collection, and
    [calculationCache.results] is left as it was. *)
Theorem raising_boundary_ends_the_call
    (clock : Clock) (cache : Cache) (before after : list Community)
    (community : Community) (crimeData : option CrimeCollection)
    (timeRange : string) (selectedCrimeTypes : option (list string)) :
  Spec.raises community →
  (calculateSafetyTrends clock cache
     (Some {| features := Some (before ++ community :: after) |})
     crimeData timeRange selectedCrimeTypes).1
  = (calculateSafetyTrends clock cache (Some {| features := Some before |})
       crimeData timeRange selectedCrimeTypes).1
  ∧ results
      (calculateSafetyTrends clock cache
         (Some {| features := Some (before ++ community :: after) |})
         crimeData timeRange selectedCrimeTypes).2
    = results cache.
Proof.
  intros Hr. unfold calculateSafetyTrends.
  destruct crimeData as [[[[|c0 crs]|]]|]; try (split; reflexivity).
  cbv zeta. rewrite communities_forEach_raises by exact Hr.
  match goal with
  | |- context [communities_forEach ?t ?ri ?pi before ?tr cache] =>
      pose proof (communities_forEach_results t ri pi before tr cache) as Hres;
      destruct (communities_forEach t ri pi before tr cache)
        as [[trends' cache'] []]
  end; cbn [fst snd] in *; now split.
Qed.

Lemma raising_boundary_ends_the_call_witness :
  (calculateSafetyTrends Sample.clock Sample.empty_cache
     (Some {| features :=
                Some ([Sample.sliver]
                        ++ {| id := None; properties := None;
                              geometry := Some Sample.square_geometry |}
                        :: [Sample.square]) |})
     (Sample.crimes Sample.seven_eight) "1year" None).1
  = (calculateSafetyTrends Sample.clock Sample.empty_cache
       (Some {| features := Some [Sample.sliver] |})
       (Sample.crimes Sample.seven_eight) "1year" None).1
  ∧ results
      (calculateSafetyTrends Sample.clock Sample.empty_cache
         (Some {| features :=
                    Some ([Sample.sliver]
                            ++ {| id := None; properties := None;
                                  geometry := Some Sample.square_geometry |}
                            :: [Sample.square]) |})
         (Sample.crimes Sample.seven_eight) "1year" None).2
    = results Sample.empty_cache.
Proof.
  apply (raising_boundary_ends_the_call Sample.clock Sample.empty_cache
           [Sample.sliver] [Sample.square]
           {| id := None; properties := None;
              geometry := Some Sample.square_geometry |}
           (Sample.crimes Sample.seven_eight) "1year" None).
  repeat split. unfold Spec.degenerate. vm_compute. lia.
Defined.

(** ** The category filter and the cap *)

(** X13.  Selecting more categories never drops a crime, as long as the
    smaller selection is not empty (an empty selection matches every
    crime): a crime that matches a selection matches every selection
    that contains its categories, in any order. *)
Theorem larger_selection_matches_more
    (smaller larger : list string) (crime : Crime) :
  smaller ≠ [] →
  (∀ type, In type smaller → In type larger) →
  isCrimeTypeSelected (Some smaller) crime = Normal true →
  isCrimeTypeSelected (Some larger) crime = Normal true.
Proof.
  intros Hne Hincl. unfold isCrimeTypeSelected.
  destruct smaller as [|s0 smaller]; [contradiction|].
  destruct larger as [|l0 larger]; [destruct (Hincl s0); now left|].
  destruct (crime_properties crime) as [p|]; [|discriminate].
  intros H.
  assert (selected_loop (description_of p) (s0 :: smaller) = true) as Hs
    by congruence.
  clear H. f_equal.
  apply selected_loop_iff in Hs. apply selected_loop_iff.
  rename Hs into H.
  destruct H as (t & Hin & Ht). exists t. split; [now apply Hincl | exact Ht].
Qed.

Lemma larger_selection_matches_more_witness :
  ["Vandalism"] ≠ []
  ∧ isCrimeTypeSelected (Some ["Violent Crime"; "Vandalism"])
      Sample.tagged = Normal true.
Proof.
  split; [discriminate|].
  apply (larger_selection_matches_more ["Vandalism"]
           ["Violent Crime"; "Vandalism"] Sample.tagged).
  - discriminate.
  - intros type [<- | []]. right. now left.
  - vm_compute. reflexivity.
Defined.

Lemma Math_min_capped (y : float) :
  (100 <? Double.Math_min 100 y)%float = false.
Proof.
  unfold Double.Math_min.
  change (is_nan 100) with false. change (is_zero 100) with false.
  cbn [orb andb].
  destruct (is_nan y); [reflexivity|].
  destruct (100 <? y)%float eqn:Hlt; [reflexivity|].
  destruct (y <? 100)%float; [exact Hlt | reflexivity].
Qed.

(** X14.  No record of a result has a [changePercent] above 100 (the
    projection of [getSafetyTrendsForTimeRange], which recomputes the
    percentage, has no such bound). *)
Theorem changePercent_never_above_100
    (clock : Clock) (cache : Cache) (communities : option CommunityCollection)
    (crimeData : option CrimeCollection) (timeRange : string)
    (selectedCrimeTypes : option (list string))
    (communityId' : string) (record : Trend) :
  (calculateSafetyTrends clock cache communities crimeData timeRange
     selectedCrimeTypes).1 !! communityId' = Some record →
  (100 <? changePercent record)%float = false.
Proof.
  intros Hl.
  refine (calculateSafetyTrends_invariant
            (λ r, (100 <? changePercent r)%float = false) timeRange _
            clock cache communities crimeData selectedCrimeTypes
            communityId' record Hl).
  intros ri pi community trends cache0 trends1 cache1 Hall Hp.
  apply process_community_writes in Hp as (r & -> & [-> | [Hcp _]]);
    (apply map_Forall_insert_2; [|exact Hall]).
  - reflexivity.
  - cbn beta. rewrite Hcp. apply Math_min_capped.
Qed.

Lemma changePercent_never_above_100_witness :
  ∃ record,
    (calculateSafetyTrends Sample.clock Sample.empty_cache
       (Sample.communities [Sample.square])
       (Sample.crimes (repeat (Sample.centre 2025) 5 ++ [Sample.centre 2024]))
       "1year" None).1 !! "square"
    = Some record
    ∧ recentCount record = 5%nat
    ∧ previousCount record = 1%nat
    ∧ (100 <? changePercent record)%float = false.
Proof.
  eexists. split; [vm_compute; reflexivity|].
  split; [reflexivity|]. split; [reflexivity|].
  apply (changePercent_never_above_100 Sample.clock Sample.empty_cache
           (Sample.communities [Sample.square])
           (Sample.crimes
              (repeat (Sample.centre 2025) 5 ++ [Sample.centre 2024]))
           "1year" None "square").
  vm_compute; reflexivity.
Defined.

(** ** Two windows over the same years *)

Lemma two_years_recent (clock : Clock)
    (selectedCrimeTypes : option (list string)) (crime : Crime) :
  is_recent (crime_bucket clock "2years" selectedCrimeTypes crime)
  = is_recent (crime_bucket clock "1year" selectedCrimeTypes crime)
    || is_previous (crime_bucket clock "1year" selectedCrimeTypes crime).
Proof.
  unfold crime_bucket.
  destruct (isCrimeTypeSelected selectedCrimeTypes crime) as [[|]|];
    try reflexivity.
  destruct (crime_properties crime) as [p|]; [|reflexivity].
  destruct (dispatch_date_time p) as [| |crimeDate]; try reflexivity.
  unfold getPeriodType. cbn [String.eqb Ascii.eqb Bool.eqb].
  change (2025 - 1)%Z with 2024%Z.
  destruct (getFullYear crimeDate =? 2025)%Z; [reflexivity|].
  destruct (getFullYear crimeDate =? 2024)%Z; [reflexivity|].
  cbn [orb].
  now destruct ((getFullYear crimeDate =? 2025 - 2)
                || (getFullYear crimeDate =? 2025 - 3))%Z.
Qed.

Lemma filter_split_length {A : Type} (p f g h : A → bool) (l : list A) :
  (∀ x, h x = f x || g x) →
  (∀ x, f x && g x = false) →
  length (List.filter p (List.filter h l))
  = (length (List.filter p (List.filter f l))
     + length (List.filter p (List.filter g l)))%nat.
Proof.
  intros Hh Hd. induction l as [|x l IH]; [reflexivity|].
  cbn [List.filter]. rewrite Hh. specialize (Hd x).
  destruct (f x), (g x); try discriminate; cbn [orb List.filter];
    destruct (p x); cbn [length]; lia.
Qed.

(** X15.  The recent period of '2years' is the whole of '1year'.  For a
    boundary and two calls on the same data that both meet the
    conditions of X2, the [recentCount] of the '2years' record is the sum
    of the [recentCount] and the [previousCount] of the '1year' record. *)
Theorem two_year_window_is_both_years
    (clock : Clock) (cache1 cache2 : Cache) (before after : list Community)
    (community : Community) (crime : Crime) (others : list Crime)
    (selectedCrimeTypes : option (list string))
    (key : option string) (bounds : Bounds) :
  calculateCommunityBounds community = Some bounds →
  bounds_key community = Normal key →
  communityBounds cache1 !! key = None
  ∨ communityBounds cache1 !! key = Some bounds →
  communityBounds cache2 !! key = None
  ∨ communityBounds cache2 !! key = Some bounds →
  Forall (λ c, ¬ Spec.raises c ∧ bounds_key c ≠ Normal key) before →
  Forall (λ c, communityId_of c ≠ communityId_of community) after →
  ∃ oneYear twoYears,
    (calculateSafetyTrends clock cache1
       (Some {| features := Some (before ++ community :: after) |})
       (Some {| crime_features := Some (crime :: others) |})
       "1year" selectedCrimeTypes).1 !! communityId_of community
    = Some oneYear
    ∧ (calculateSafetyTrends clock cache2
         (Some {| features := Some (before ++ community :: after) |})
         (Some {| crime_features := Some (crime :: others) |})
         "2years" selectedCrimeTypes).1 !! communityId_of community
      = Some twoYears
    ∧ recentCount twoYears
      = (recentCount oneYear + previousCount oneYear)%nat.
Proof.
  intros Hbounds Hkey Hcache1 Hcache2 Hbefore Hafter.
  destruct (calculateSafetyTrends_exact clock cache1 before after community
              crime others "1year" selectedCrimeTypes key bounds
              Hbounds Hkey Hcache1 Hbefore Hafter)
    as (oneYear & Hl1 & Hr1 & Hp1 & _).
  destruct (calculateSafetyTrends_exact clock cache2 before after community
              crime others "2years" selectedCrimeTypes key bounds
              Hbounds Hkey Hcache2 Hbefore Hafter)
    as (twoYears & Hl2 & Hr2 & _).
  exists oneYear, twoYears. split; [exact Hl1|]. split; [exact Hl2|].
  rewrite Hr1, Hp1, Hr2. unfold Direct.bucket.
  apply filter_split_length.
  - intros x. apply two_years_recent.
  - intros x. now destruct (crime_bucket clock "1year" selectedCrimeTypes x).
Qed.

Lemma two_year_window_is_both_years_witness :
  ∃ oneYear twoYears,
    (calculateSafetyTrends Sample.clock Sample.empty_cache
       (Some {| features := Some ([Sample.sliver] ++ Sample.square :: []) |})
       (Some {| crime_features :=
                  Some (Sample.centre 2025 :: Sample.three_years) |})
       "1year" None).1 !! communityId_of Sample.square
    = Some oneYear
    ∧ (calculateSafetyTrends Sample.clock Sample.empty_cache
         (Some {| features :=
                    Some ([Sample.sliver] ++ Sample.square :: []) |})
         (Some {| crime_features :=
                    Some (Sample.centre 2025 :: Sample.three_years) |})
         "2years" None).1 !! communityId_of Sample.square
      = Some twoYears
    ∧ recentCount twoYears
      = (recentCount oneYear + previousCount oneYear)%nat.
Proof.
  apply (two_year_window_is_both_years Sample.clock Sample.empty_cache
           Sample.empty_cache [Sample.sliver] [] Sample.square
           (Sample.centre 2025) Sample.three_years None (Some "square")
           {| minLat := 0; maxLat := 1; minLon := 0; maxLon := 1 |}).
  - reflexivity.
  - reflexivity.
  - left. reflexivity.
  - left. reflexivity.
  - repeat constructor.
    + intros (_ & Hid & _). vm_compute in Hid. discriminate.
    + vm_compute. discriminate.
  - constructor.
Defined.

(** ** The centre of a boundary *)

Lemma validCoords_vertices (ring : list (list Q)) :
  ring_vertices ring = map (λ c, (snd c, fst c)) (validCoords ring).
Proof.
  unfold ring_vertices, validCoords.
  induction ring as [|coord ring IH]; [reflexivity|].
  cbn [flat_map]. rewrite map_app, IH.
  now destruct coord as [|c0 [|c1 coord]].
Qed.

(** X16.  For a Polygon boundary with an outer ring,
    [calculateCommunityCenter] returns [null] exactly when
    [calculateCommunityBounds] does, that is when the outer ring has
    fewer than three positions with two numbers; otherwise both return
    a value. *)
Theorem centre_exists_with_bounding_box
    (community : Community) (ring : list (list Q))
    (holes : list (list (list Q))) :
  geometry community = Some (Polygon (ring :: holes)) →
  match calculateCommunityBounds community with
  | None => calculateCommunityCenter (geometry community) = Normal None
  | Some _ =>
      ∃ centre,
        calculateCommunityCenter (geometry community) = Normal (Some centre)
  end
  ∧ (calculateCommunityBounds community = None
     ↔ (length (validCoords ring) < 3)%nat).
Proof.
  intros Hg.
  assert (length (getPolygonCoordinates (geometry community))
          = length (validCoords ring)) as Hlen.
  { rewrite Hg. cbn [getPolygonCoordinates getPolygonCoordinates_geom
                       outer_ring_vertices].
    now rewrite validCoords_vertices, length_map. }
  assert (calculateCommunityBounds community = None
          ↔ (length (validCoords ring) < 3)%nat) as Hnone.
  { unfold calculateCommunityBounds. rewrite Hlen.
    destruct (Nat.ltb_spec (length (validCoords ring)) 3) as [Hlt | Hge].
    - tauto.
    - destruct (getPolygonCoordinates (geometry community))
        as [|[lat0 lon0] rest] eqn:Hc.
      + rewrite <- Hlen in Hge. cbn in Hge. lia.
      + split; [discriminate | lia]. }
  split; [|exact Hnone].
  destruct (calculateCommunityBounds community) as [bounds|] eqn:Hb;
    rewrite Hg; unfold calculateCommunityCenter, center_of; cbv zeta.
  - destruct (Nat.ltb_spec (length (validCoords ring)) 3) as [Hlt | Hge].
    + apply Hnone in Hlt. discriminate.
    + eexists. reflexivity.
  - destruct (Nat.ltb_spec (length (validCoords ring)) 3) as [Hlt | Hge];
      [reflexivity|].
    assert (length (validCoords ring) < 3)%nat by now apply Hnone. lia.
Qed.

Lemma centre_exists_with_bounding_box_witness :
  (∃ centre,
     calculateCommunityCenter (geometry Sample.square)
     = Normal (Some centre))
  ∧ (calculateCommunityBounds Sample.square = None
     ↔ (length (validCoords [ [0; 0]; [1; 0]; [1; 1]; [0; 1] ]%Q) < 3)%nat).
Proof.
  exact (centre_exists_with_bounding_box Sample.square
           [ [0; 0]; [1; 0]; [1; 1]; [0; 1] ] [] eq_refl).
Defined.

(** ** [uniq] *)

Lemma uniq_loop_elements {A : Type} `{EqDecision A} (arr : list A) :
  ∀ set,
    NoDup set →
    NoDup (fold_left (λ set x, if decide (x ∈ set) then set else set ++ [x])
             arr set)
    ∧ ∀ y,
        y ∈ fold_left (λ set x, if decide (x ∈ set) then set else set ++ [x])
              arr set
        ↔ y ∈ set ∨ y ∈ arr.
Proof.
  induction arr as [|x arr IH]; intros set Hnd; cbn [fold_left].
  - split; [exact Hnd|]. intros y. rewrite elem_of_nil. tauto.
  - destruct (decide (x ∈ set)) as [Hin | Hnotin].
    + destruct (IH set Hnd) as [Hnd' Hel]. split; [exact Hnd'|].
      intros y. rewrite Hel, elem_of_cons.
      split; [tauto|]. intros [Hy | [-> | Hy]]; tauto.
    + destruct (IH (set ++ [x])) as [Hnd' Hel].
      { apply NoDup_app. split; [exact Hnd|]. split; [|apply NoDup_singleton].
        intros z Hz Hzx. apply list_elem_of_singleton in Hzx. now subst z. }
      split; [exact Hnd'|].
      intros y. rewrite Hel, elem_of_app, list_elem_of_singleton, elem_of_cons.
      tauto.
Qed.

Lemma uniq_loop_NoDup {A : Type} `{EqDecision A} (arr : list A) :
  ∀ set,
    NoDup (set ++ arr) →
    fold_left (λ set x, if decide (x ∈ set) then set else set ++ [x]) arr set
    = set ++ arr.
Proof.
  induction arr as [|x arr IH]; intros set Hnd; cbn [fold_left].
  - now rewrite app_nil_r.
  - assert (x ∉ set) as Hnotin.
    { apply NoDup_app in Hnd as (_ & Hd & _). intros Hx.
      apply (Hd x Hx). now left. }
    rewrite decide_False by exact Hnotin.
    rewrite IH; rewrite <- app_assoc; [reflexivity | exact Hnd].
Qed.

Lemma uniq_loop_filter {A : Type} `{EqDecision A} (n : nat) :
  ∀ (arr set : list A),
    (length arr <= n)%nat →
    fold_left (λ set x, if decide (x ∈ set) then set else set ++ [x]) arr set
    = set ++ uniq (filter (λ y, y ∉ set) arr).
Proof.
  unfold uniq.
  induction n as [|n IH]; intros arr set Hlen.
  - destruct arr; [|cbn in Hlen; lia]. cbn. now rewrite app_nil_r.
  - destruct arr as [|x arr]; [cbn; now rewrite app_nil_r|].
    cbn [length] in Hlen. cbn [fold_left].
    destruct (decide (x ∈ set)) as [Hin | Hnotin].
    + rewrite filter_cons_False by tauto. apply IH. lia.
    + rewrite filter_cons_True by exact Hnotin.
      cbn [fold_left]. rewrite decide_False by apply not_elem_of_nil.
      rewrite (IH arr (set ++ [x])) by lia.
      rewrite (IH (filter (λ y, y ∉ set) arr) ([] ++ [x])).
      2:{ pose proof (length_filter (λ y, y ∉ set) arr). lia. }
      rewrite list_filter_filter, <- app_assoc. cbn [app].
      do 3 f_equal. apply list_filter_iff. intros y.
      rewrite elem_of_app, !list_elem_of_singleton. tauto.
Qed.

(** X17.  [uniq] keeps the first occurrence of every element and drops
    the later ones: the result has no duplicate and the same elements as
    the array, an array without duplicates comes back as it is (so
    [uniq] is idempotent), and the result for an array that starts with
    [x] is [x] followed by the result for the rest without [x]. *)
Theorem uniq_keeps_first_occurrences {A : Type} `{EqDecision A}
    (x : A) (arr : list A) :
  NoDup (uniq arr)
  ∧ (∀ y, y ∈ uniq arr ↔ y ∈ arr)
  ∧ uniq (uniq arr) = uniq arr
  ∧ uniq (x :: arr) = x :: uniq (filter (λ y, y ≠ x) arr).
Proof.
  destruct (uniq_loop_elements arr [] (NoDup_nil_2 : NoDup (@nil A)))
    as [Hnd Hel].
  split; [exact Hnd|]. split.
  { intros y. unfold uniq. rewrite Hel, elem_of_nil. tauto. }
  split.
  { exact (uniq_loop_NoDup (uniq arr) [] Hnd). }
  unfold uniq at 1. cbn [fold_left].
  rewrite decide_False by apply not_elem_of_nil.
  rewrite (uniq_loop_filter (length arr) arr ([] ++ [x])) by lia.
  cbn [app]. f_equal. f_equal. apply list_filter_iff. intros y.
  now rewrite list_elem_of_singleton.
Qed.

(** ** Lines of a CSV file *)

Lemma trimStart_incl (c : N) (s : Csv.JSString) :
  In c (Csv.trimStart s) → In c s.
Proof.
  induction s as [|d s IH]; [now intros Hc|].
  cbn [Csv.trimStart]. destruct (Csv.isWhiteSpace d); [|now intros Hc].
  intros Hc. right. now apply IH.
Qed.

Lemma trim_incl (c : N) (s : Csv.JSString) : In c (Csv.trim s) → In c s.
Proof.
  unfold Csv.trim, Csv.trimEnd. intros Hc.
  apply in_rev, trimStart_incl, in_rev in Hc. now apply trimStart_incl.
Qed.

Lemma trimStart_cases (s : Csv.JSString) :
  Csv.trimStart s = []
  ∨ ∃ c rest, Csv.trimStart s = c :: rest ∧ Csv.isWhiteSpace c = false.
Proof.
  induction s as [|d s IH]; [now left|].
  cbn [Csv.trimStart]. destruct (Csv.isWhiteSpace d) eqn:Hd; [exact IH|].
  right. now exists d, s.
Qed.

Lemma trimStart_idem (s : Csv.JSString) :
  Csv.trimStart (Csv.trimStart s) = Csv.trimStart s.
Proof.
  destruct (trimStart_cases s) as [-> | (c & rest & -> & Hc)]; [reflexivity|].
  cbn [Csv.trimStart]. now rewrite Hc.
Qed.

Lemma trimStart_snoc (c : N) (s : Csv.JSString) :
  Csv.isWhiteSpace c = false →
  ∃ u, Csv.trimStart (s ++ [c]) = u ++ [c].
Proof.
  intros Hc. induction s as [|d s IH]; cbn [app Csv.trimStart].
  - rewrite Hc. now exists [].
  - destruct (Csv.isWhiteSpace d); [exact IH|]. now exists (d :: s).
Qed.

Lemma trim_idem (s : Csv.JSString) : Csv.trim (Csv.trim s) = Csv.trim s.
Proof.
  unfold Csv.trim, Csv.trimEnd.
  destruct (trimStart_cases s) as [-> | (c & rest & -> & Hc)]; [reflexivity|].
  cbn [rev].
  destruct (trimStart_snoc c (rev rest) Hc) as [u Hu].
  rewrite Hu, rev_app_distr. cbn [rev app Csv.trimStart]. rewrite Hc.
  cbn [rev]. rewrite rev_involutive, <- Hu, trimStart_idem, Hu.
  now rewrite rev_app_distr.
Qed.

Lemma parseCsvLine_loop_in_quotes (field rest : Csv.JSString) :
  Csv.quote ∉ field →
  ∀ values currentValue,
    Csv.parseCsvLine_loop (field ++ Csv.quote :: rest) values true
      currentValue
    = Csv.parseCsvLine_loop rest values false (currentValue ++ field).
Proof.
  induction field as [|c field IH]; intros Hq values currentValue.
  - cbn. now rewrite app_nil_r.
  - apply not_elem_of_cons in Hq as [Hc Hq].
    cbn [app Csv.parseCsvLine_loop].
    rewrite (proj2 (N.eqb_neq c Csv.quote)) by congruence.
    rewrite andb_false_r, IH by exact Hq. now rewrite <- app_assoc.
Qed.

Lemma parseCsvLine_loop_plain (field rest : Csv.JSString) :
  Csv.quote ∉ field → Csv.comma ∉ field →
  ∀ values currentValue,
    Csv.parseCsvLine_loop (field ++ rest) values false currentValue
    = Csv.parseCsvLine_loop rest values false (currentValue ++ field).
Proof.
  induction field as [|c field IH]; intros Hq Hc values currentValue.
  - cbn. now rewrite app_nil_r.
  - apply not_elem_of_cons in Hq as [Hcq Hq].
    apply not_elem_of_cons in Hc as [Hcc Hc].
    cbn [app Csv.parseCsvLine_loop].
    rewrite (proj2 (N.eqb_neq c Csv.quote)) by congruence.
    rewrite (proj2 (N.eqb_neq c Csv.comma)) by congruence.
    cbn [andb]. rewrite IH by assumption. now rewrite <- app_assoc.
Qed.

Lemma parseCsvLine_loop_written (field : bool * Csv.JSString)
    (rest : Csv.JSString) (values : list Csv.JSString)
    (currentValue : Csv.JSString) :
  Csv.quote ∉ snd field →
  (fst field = false → Csv.comma ∉ snd field) →
  Csv.parseCsvLine_loop (Csv.written field ++ rest) values false currentValue
  = Csv.parseCsvLine_loop rest values false (currentValue ++ snd field).
Proof.
  destruct field as [[|] content]; unfold Csv.written; cbn [fst snd];
    intros Hq Hc.
  - cbn [app Csv.parseCsvLine_loop]. cbn [N.eqb Csv.quote Pos.eqb negb].
    rewrite <- app_assoc. cbn [app].
    now apply parseCsvLine_loop_in_quotes.
  - apply parseCsvLine_loop_plain; [exact Hq | now apply Hc].
Qed.

Lemma parseCsvLine_loop_fields (fields : list (bool * Csv.JSString)) :
  fields ≠ [] →
  Forall (λ field, (Csv.quote ∉ snd field)
                   ∧ (fst field = false → Csv.comma ∉ snd field)) fields →
  ∀ values,
    Csv.parseCsvLine_loop (Csv.line_of fields) values false []
    = values ++ map (λ field, Csv.trim (snd field)) fields.
Proof.
  induction fields as [|field fields IH]; [contradiction|].
  intros _ Hall values.
  apply Forall_cons in Hall as [[Hq Hc] Hall].
  destruct fields as [|next fields].
  - cbn [Csv.line_of map].
    rewrite <- (app_nil_r (Csv.written field)).
    now rewrite parseCsvLine_loop_written.
  - change (Csv.line_of (field :: next :: fields))
      with (Csv.written field ++ Csv.comma :: Csv.line_of (next :: fields)).
    rewrite parseCsvLine_loop_written by assumption.
    cbn [Csv.parseCsvLine_loop].
    change (Csv.comma =? Csv.quote)%N with false.
    change (Csv.comma =? Csv.comma)%N with true.
    cbn [andb negb app]. rewrite IH by (assumption || discriminate).
    cbn [map]. now rewrite <- app_assoc.
Qed.

(** X18.  Reading back a written line.  A line made of one or more
    fields separated by commas, each field either put between two quotes
    or written as it is, where no field holds a quote and no unquoted
    field holds a comma, is split into exactly those fields, each one
    trimmed of leading and trailing white space; a comma inside quotes
    does not split. *)
Theorem parseCsvLine_reads_written_line (fields : list (bool * Csv.JSString)) :
  fields ≠ [] →
  Forall (λ field, (Csv.quote ∉ snd field)
                   ∧ (fst field = false → Csv.comma ∉ snd field)) fields →
  Csv.parseCsvLine (Csv.line_of fields)
  = map (λ field, Csv.trim (snd field)) fields.
Proof.
  intros Hne Hall. unfold Csv.parseCsvLine.
  now rewrite parseCsvLine_loop_fields.
Qed.

Lemma parseCsvLine_reads_written_line_witness :
  Csv.parseCsvLine [32; 97; 44; 34; 98; 44; 99; 34]%N
  = [[97]; [98; 44; 99]]%N.
Proof.
  apply (parseCsvLine_reads_written_line
           [(false, [32; 97]%N); (true, [98; 44; 99]%N)]).
  - discriminate.
  - repeat apply Forall_cons_2; try apply Forall_nil_2; cbn [fst snd];
      (split; [|try discriminate; intros _]);
      intros Hin; apply list_elem_of_In in Hin; cbn in Hin;
      intuition discriminate.
Defined.

Lemma parseCsvLine_loop_values (line : Csv.JSString) :
  ∀ values inQuotes currentValue,
    Forall (λ v, (Csv.quote ∉ v) ∧ Csv.trim v = v) values →
    Csv.quote ∉ currentValue →
    Forall (λ v, (Csv.quote ∉ v) ∧ Csv.trim v = v)
      (Csv.parseCsvLine_loop line values inQuotes currentValue)
    ∧ (length values
       < length (Csv.parseCsvLine_loop line values inQuotes currentValue))%nat.
Proof.
  assert (∀ s, Csv.quote ∉ s →
               (Csv.quote ∉ Csv.trim s) ∧ Csv.trim (Csv.trim s) = Csv.trim s)
    as Htrim.
  { intros s Hs. split; [|apply trim_idem].
    intros Hin. apply Hs. apply list_elem_of_In, trim_incl.
    now apply list_elem_of_In. }
  induction line as [|char line IH]; intros values inQuotes currentValue Hv Hc;
    cbn [Csv.parseCsvLine_loop].
  - split.
    + apply Forall_app. split; [exact Hv|]. constructor; [|constructor].
      now apply Htrim.
    + rewrite length_app. cbn. lia.
  - destruct (char =? Csv.quote)%N eqn:Hq; [now apply IH|].
    destruct ((char =? Csv.comma)%N && negb inQuotes).
    + destruct (IH (values ++ [Csv.trim currentValue]) inQuotes []) as [H1 H2].
      * apply Forall_app. split; [exact Hv|]. constructor; [|constructor].
        now apply Htrim.
      * apply not_elem_of_nil.
      * split; [exact H1|]. rewrite length_app in H2. cbn in H2. lia.
    + apply IH; [exact Hv|].
      apply not_elem_of_app. split; [exact Hc|].
      apply N.eqb_neq in Hq. intros Hin.
      apply list_elem_of_singleton in Hin. congruence.
Qed.

(** X19.  [parseCsvLine] returns at least one value for every line, and
    no value it returns holds a quote or has leading or trailing white
    space: quotes are dropped wherever they stand, a doubled quote
    included. *)
Theorem parseCsvLine_values_are_bare (line : Csv.JSString) :
  Csv.parseCsvLine line ≠ []
  ∧ Forall (λ v, (Csv.quote ∉ v) ∧ Csv.trim v = v) (Csv.parseCsvLine line).
Proof.
  destruct (parseCsvLine_loop_values line [] false [])
    as [Hall Hlen]; [constructor | apply not_elem_of_nil |].
  unfold Csv.parseCsvLine. split; [|exact Hall].
  intros Heq. rewrite Heq in Hlen. cbn in Hlen. lia.
Qed.
